(** * TSjson: a lock-guarded JSON record store kept in one file

    A shallow embedding of [sources/tsjson.py].  The Python class [TSjson]
    binds one file path and one [threading.Lock]; every method reads or
    rewrites the whole file.  The embedding keeps

    - Python values as the inductive [value] (the JSON-shaped fragment:
      [None], booleans, integers, strings, lists, tuples, and string-keyed
      dictionaries that remember whether they are an [OrderedDict]);
    - the file as seen through [os.path.exists], [os.stat], [open],
      [json.load] and [json.dump]: absent, or present with a text that is
      empty, malformed, or the encoding of a JSON term;
    - effects as a state-and-exception monad over [world], the part of the
      process and file system a store handle can observe: the file, its
      parent directory, the permissions, the lock and the log;
    - threads sharing a handle as interleavings of the steps of
      [write_content] that touch the file system or the lock.

    The JSON codec itself is a given primitive: a text is represented by the
    JSON term it denotes, [json.dump] produces the term of its argument and
    [json.load] rebuilds Python values from a term.  Numbers are restricted
    to integers and characters to the 8-bit alphabet of [ascii]. *)

From Stdlib Require Import ZArith Lia Bool.
From stdpp Require Import base tactics option list strings.

Local Open Scope Z_scope.
Local Open Scope string_scope.
Local Open Scope list_scope.

(** ** Python values *)

Module Py.

Unset Elimination Schemes.

Inductive value : Type :=
| VNone
| VBool (b : bool)
| VInt (n : Z)
| VStr (s : string)
| VList (xs : list value)
| VTuple (xs : list value)
| VDict (ordered : bool) (items : list (string * value)).

Set Elimination Schemes.

(** Exceptions the modelled code can meet.  [FileExistsError] is a
    subclass of [OSError] (Python's [IOError]); [ValueError] stands for
    [json.JSONDecodeError], one of its subclasses. *)
Inductive exn : Type :=
| KeyError | TypeError | AttributeError | IndexError
| ValueError | OSError | FileExistsError.

Definition is_io_error (e : exn) : bool :=
  match e with OSError | FileExistsError => true | _ => false end.

Definition is_value_error (e : exn) : bool :=
  match e with ValueError => true | _ => false end.

(** The outcome of evaluating a Python expression or statement. [Hang]
    is a thread blocked for ever on a lock nobody releases. *)
Inductive result (A : Type) : Type :=
| Ret (a : A)
| Raise (e : exn)
| Hang.
Arguments Ret {A} a.
Arguments Raise {A} e.
Arguments Hang {A}.

Definition rbind {A B} (r : result A) (k : A -> result B) : result B :=
  match r with
  | Ret a => k a
  | Raise e => Raise e
  | Hang => Hang
  end.

(** *** Dictionaries: insertion-ordered association lists *)

Fixpoint dict_get {A} (k : string) (items : list (string * A)) : option A :=
  match items with
  | [] => None
  | (k', v) :: rest => if String.eqb k k' then Some v else dict_get k rest
  end.

(** [d[k] = v]: an existing key keeps its position. *)
Fixpoint dict_set {A} (k : string) (v : A) (items : list (string * A))
  : list (string * A) :=
  match items with
  | [] => [(k, v)]
  | (k', v') :: rest =>
      if String.eqb k k' then (k', v) :: rest
      else (k', v') :: dict_set k v rest
  end.

(** [dict(pairs)] and [OrderedDict(pairs)]. *)
Definition dict_of_pairs {A} (pairs : list (string * A)) : list (string * A) :=
  fold_left (fun d kv => dict_set (fst kv) (snd kv) d) pairs [].

Definition keys {A} (items : list (string * A)) : list string := map fst items.

(** *** Truth value: [bool(v)], as used by [if not v] *)

Definition truthy (v : value) : bool :=
  match v with
  | VNone => false
  | VBool b => b
  | VInt n => negb (Z.eqb n 0)
  | VStr s => negb (String.eqb s EmptyString)
  | VList xs => match xs with [] => false | _ => true end
  | VTuple xs => match xs with [] => false | _ => true end
  | VDict _ items => match items with [] => false | _ => true end
  end.

(** *** Equality: [a == b]

    Booleans are integers; two [OrderedDict]s compare their key order
    too, any other pair of dictionaries compares as plain [dict]s. *)

Fixpoint same_keys {A B} (xs : list (string * A)) (ys : list (string * B)) : bool :=
  match xs, ys with
  | [], [] => true
  | (k, _) :: xs', (k', _) :: ys' => String.eqb k k' && same_keys xs' ys'
  | _, _ => false
  end.

Section Elementwise.
Context {A B : Type} (eq : A -> B -> bool).

(** Same length and equal element by element. *)
Fixpoint all2 (xs : list A) (ys : list B) : bool :=
  match xs, ys with
  | [], [] => true
  | x :: xs', y :: ys' => eq x y && all2 xs' ys'
  | _, _ => false
  end.

(** Every key of [ia] is a key of [ib], with an equal value. *)
Fixpoint entries_in (ia : list (string * A)) (ib : list (string * B)) : bool :=
  match ia with
  | [] => true
  | (k, v) :: ia' =>
      match dict_get k ib with
      | Some w => eq v w
      | None => false
      end && entries_in ia' ib
  end.

End Elementwise.

Fixpoint py_eq (a b : value) {struct a} : bool :=
  match a, b with
  | VNone, VNone => true
  | VBool x, VBool y => Bool.eqb x y
  | VBool x, VInt m => Z.eqb (Z.b2z x) m
  | VInt n, VBool y => Z.eqb n (Z.b2z y)
  | VInt n, VInt m => Z.eqb n m
  | VStr s, VStr t => String.eqb s t
  | VList xs, VList ys => all2 py_eq xs ys
  | VTuple xs, VTuple ys => all2 py_eq xs ys
  | VDict oa ia, VDict ob ib =>
      Nat.eqb (length ia) (length ib)
      && entries_in py_eq ia ib
      && (if oa && ob then same_keys ia ib else true)
  | _, _ => false
  end.

(** [v is None] *)
Definition is_none (v : value) : bool :=
  match v with VNone => true | _ => false end.

(** The literal [{}]. *)
Definition empty_dict : value := VDict false [].

(** *** Subscripts, iteration, list methods *)

(** [v[key]] for a string [key]. *)
Definition subscript (v : value) (key : string) : result value :=
  match v with
  | VDict _ items =>
      match dict_get key items with
      | Some x => Ret x
      | None => Raise KeyError
      end
  | _ => Raise TypeError
  end.

(** [v[key] = x] for a string [key]. *)
Definition store (v : value) (key : string) (x : value) : result value :=
  match v with
  | VDict o items => Ret (VDict o (dict_set key x items))
  | _ => Raise TypeError
  end.

Fixpoint chars (s : string) : list value :=
  match s with
  | EmptyString => []
  | String c rest => VStr (String c EmptyString) :: chars rest
  end.

(** The elements [for x in v] runs through. *)
Definition py_iter (v : value) : result (list value) :=
  match v with
  | VList xs => Ret xs
  | VTuple xs => Ret xs
  | VDict _ items => Ret (map (fun kv => VStr (fst kv)) items)
  | VStr s => Ret (chars s)
  | _ => Raise TypeError
  end.

(** [v.append(x)], giving the list after the call. *)
Definition py_append (v x : value) : result value :=
  match v with
  | VList xs => Ret (VList (xs ++ [x]))
  | _ => Raise AttributeError
  end.

(** [xs.remove(data)] where [data] is the very object stored at index
    [i] of [xs]: the first element that is [data] or equals it goes. *)
Fixpoint list_remove (data : value) (i : nat) (xs : list value) : list value :=
  match xs with
  | [] => []
  | x :: xs' =>
      match i with
      | O => xs'
      | S i' => if py_eq x data then xs' else x :: list_remove data i' xs'
      end
  end.

End Py.
Export Py.

(** ** JSON terms and the codec *)

Module Json.

Unset Elimination Schemes.

Inductive json : Type :=
| JNull
| JBool (b : bool)
| JInt (n : Z)
| JStr (s : string)
| JArr (xs : list json)
| JObj (members : list (string * json)).

Set Elimination Schemes.

(** What [json.dump(v, ...)] writes. *)
Fixpoint encode (v : value) : json :=
  match v with
  | VNone => JNull
  | VBool b => JBool b
  | VInt n => JInt n
  | VStr s => JStr s
  | VList xs => JArr (map encode xs)
  | VTuple xs => JArr (map encode xs)
  | VDict _ items => JObj (map (fun kv => (fst kv, encode (snd kv))) items)
  end.

(** What [json.load] builds: every object becomes a [dict], or an
    [OrderedDict] under [object_pairs_hook=OrderedDict]. *)
Fixpoint decode (hook : bool) (j : json) : value :=
  match j with
  | JNull => VNone
  | JBool b => VBool b
  | JInt n => VInt n
  | JStr s => VStr s
  | JArr xs => VList (map (decode hook) xs)
  | JObj members =>
      VDict hook (dict_of_pairs (map (fun kj => (fst kj, decode hook (snd kj))) members))
  end.

(** The text of a file. *)
Inductive contents : Type :=
| Blank                 (* zero bytes *)
| Malformed             (* some bytes that are not JSON *)
| Encoded (j : json).   (* a JSON text denoting [j] *)

Definition json_load (hook : bool) (c : contents) : result value :=
  match c with
  | Encoded j => Ret (decode hook j)
  | _ => Raise ValueError
  end.

(** The two literal skeleton texts of the source, with and without a
    line break inside the brackets, denote the same term. *)
Definition skeleton : json := JObj [("Content", JArr [])].

End Json.
Export Json.

(** ** The world of one store handle *)

Module World.

(** Lines sent to the logger: [logger.error(format_exc())] and the
    message that follows it. *)
Inductive log_entry : Type :=
| Traceback (e : exn)
| ErrorMsg (msg : string).

(** What a handle bound to [file_name] can observe and change.
    [dir_exists] is [os.path.exists(os.path.dirname(file_name))]; it is
    [false] for ever when [file_name] has no directory part, the directory
    name then being the empty string, which [os.makedirs] refuses
    ([makedirs_ok = false]). *)
Record world : Type := World {
  file : option contents;
  dir_exists : bool;
  makedirs_ok : bool;
  can_read : bool;
  can_write : bool;
  can_remove : bool;
  lock_held : bool;
  log : list log_entry
}.

Definition set_file (f : option contents) (w : world) : world :=
  World f (dir_exists w) (makedirs_ok w) (can_read w) (can_write w)
        (can_remove w) (lock_held w) (log w).

Definition set_dir_exists (b : bool) (w : world) : world :=
  World (file w) b (makedirs_ok w) (can_read w) (can_write w)
        (can_remove w) (lock_held w) (log w).

Definition set_lock (b : bool) (w : world) : world :=
  World (file w) (dir_exists w) (makedirs_ok w) (can_read w) (can_write w)
        (can_remove w) b (log w).

Definition add_log (e : log_entry) (w : world) : world :=
  World (file w) (dir_exists w) (makedirs_ok w) (can_read w) (can_write w)
        (can_remove w) (lock_held w) (log w ++ [e]).

(** Computations: a result and the world they leave, also when they
    raise. *)
Definition M (A : Type) : Type := world -> result A * world.

Definition ret {A} (a : A) : M A := fun w => (Ret a, w).

Definition raise {A} (e : exn) : M A := fun w => (Raise e, w).

Definition bind {A B} (m : M A) (k : A -> M B) : M B :=
  fun w =>
    match m w with
    | (Ret a, w') => k a w'
    | (Raise e, w') => (Raise e, w')
    | (Hang, w') => (Hang, w')
    end.

(** A pure evaluation that may raise. *)
Definition lift {A} (r : result A) : M A := fun w => (r, w).

(** [try: body  except Exception as e: handler e] *)
Definition try_except {A} (body : M A) (handler : exn -> M A) : M A :=
  fun w =>
    match body w with
    | (Raise e, w') => handler e w'
    | other => other
    end.

(** [self.lock.acquire()], blocking while the lock is held. *)
Definition acquire : M unit :=
  fun w => if lock_held w then (Hang, w) else (Ret tt, set_lock true w).

(** Run [body] and release the lock however it ends. *)
Definition release_after {A} (body : M A) : M A :=
  fun w =>
    match body w with
    | (r, w') => (r, set_lock false w')
    end.

(** [with self.lock: body] *)
Definition with_lock {A} (body : M A) : M A :=
  bind acquire (fun _ => release_after body).

Definition logger_error (e : log_entry) : M unit :=
  fun w => (Ret tt, add_log e w).

(** *** The operating-system calls *)

(** [os.path.exists(self.file_name)] *)
Definition os_path_exists : M bool :=
  fun w => (Ret (bool_decide (is_Some (file w))), w).

(** [os.stat(self.file_name).st_size] as a truth value. *)
Definition os_stat_size : M bool :=
  fun w =>
    match file w with
    | None => (Raise OSError, w)
    | Some Blank => (Ret false, w)
    | Some _ => (Ret true, w)
    end.

(** [os.path.exists(directory)] *)
Definition os_path_exists_dir : M bool :=
  fun w => (Ret (dir_exists w), w).

(** [os.makedirs(directory)], without [exist_ok]. *)
Definition os_makedirs : M unit :=
  fun w =>
    if dir_exists w then (Raise FileExistsError, w)
    else if makedirs_ok w then (Ret tt, set_dir_exists true w)
    else (Raise OSError, w).

(** [open(self.file_name, "r")] followed by reading the text. *)
Definition open_read : M contents :=
  fun w =>
    match file w with
    | Some c => if can_read w then (Ret c, w) else (Raise OSError, w)
    | None => (Raise OSError, w)
    end.

(** [open(self.file_name, "w")] followed by writing the text [c]; the
    source reaches it only where the directory or the file exists.
    Writing is taken to succeed once the file is open ([json.dump] is
    total on the values of [value]), so truncating the file and writing
    the text are one step. *)
Definition open_write (c : contents) : M unit :=
  fun w =>
    if can_write w then (Ret tt, set_file (Some c) w)
    else (Raise OSError, w).

(** [os.remove(self.file_name)] *)
Definition os_remove : M unit :=
  fun w =>
    match file w with
    | Some _ => if can_remove w then (Ret tt, set_file None w) else (Raise OSError, w)
    | None => (Raise OSError, w)
    end.

End World.
Export World.

Declare Scope py_scope.
Delimit Scope py_scope with py.
Notation "'do' x <- m ; k" := (bind m (fun x => k))
  (at level 10, x name, m at level 100, k at level 200) : py_scope.
Notation "'run' m ; k" := (bind m (fun _ => k))
  (at level 10, m at level 100, k at level 200) : py_scope.
Local Open Scope py_scope.

(** ** The class [TSjson] *)

Module TSjson.

(** The two log lines of an [except] clause. *)
Definition log_failure (e : exn) (msg : string) : M unit :=
  run logger_error (Traceback e);
  logger_error (ErrorMsg msg).

(** *** Raw read, write, delete *)

Definition read : M value :=
  try_except
    (with_lock
       (do ex <- os_path_exists;
        if negb ex then ret empty_dict else
        do size <- os_stat_size;
        if negb size then ret empty_dict else
        do text <- open_read;
        lift (json_load true text)))
    (fun e =>
       run log_failure e "Fail to read JSON file %s";
       ret VNone).

Definition write (data : value) : M bool :=
  if negb (truthy data) then ret false else
  do present <- os_path_exists_dir;
  run (if negb present then os_makedirs else ret tt);
  try_except
    (with_lock
       (run open_write (Encoded (encode data));
        ret true))
    (fun e =>
       run log_failure e "Fail to write JSON file %s";
       ret false).

Definition delete : M bool :=
  try_except
    (with_lock
       (do ex <- os_path_exists;
        run (if ex then os_remove else ret tt);
        ret true))
    (fun e =>
       run log_failure e "Fail to remove JSON file %s";
       ret false).

(** *** Content methods *)

Definition read_content : M value :=
  do read <- read;
  if is_none read then ret empty_dict else
  if py_eq read empty_dict then ret empty_dict else
  lift (subscript read "Content").

(** [content["Content"].append(data)], giving [content] afterwards. *)
Definition append_to_content (content data : value) : result value :=
  rbind (subscript content "Content") (fun c =>
  rbind (py_append c data) (fun c' =>
  store content "Content" c')).

(** The statements of [write_content] under the lock. *)
Definition write_content_locked (data : value) : M bool :=
  do ex <- os_path_exists;
  do nonempty <- (if ex then os_stat_size else ret false);
  if nonempty then
    do text <- open_read;
    do content <- lift (json_load true text);
    do content' <- lift (append_to_content content data);
    run open_write (Encoded (encode content'));
    ret true
  else
    run open_write (Encoded skeleton);
    do text <- open_read;
    do content <- lift (json_load false text);
    do content' <- lift (append_to_content content data);
    run open_write (Encoded (encode content'));
    ret true.

(** Its three [except] clauses. *)
Definition write_content_except (e : exn) : M bool :=
  if is_io_error e then
    run log_failure e "I/O fail (%s): %s"; ret false
  else if is_value_error e then
    run log_failure e "Data conversion fail"; ret false
  else
    run log_failure e "Fail to write content of JSON file %s"; ret false.

Definition write_content (data : value) : M bool :=
  if negb (truthy data) then ret false else
  do present <- os_path_exists_dir;
  run (if negb present then os_makedirs else ret tt);
  try_except (with_lock (write_content_locked data)) write_content_except.

(** The loop of [is_in]. *)
Fixpoint is_in_loop (data : value) (elements : list value) : bool :=
  match elements with
  | [] => false
  | _data :: rest => if py_eq data _data then true else is_in_loop data rest
  end.

Definition is_in (data : value) : M bool :=
  do file_data <- read;
  if is_none file_data then ret false else
  if py_eq file_data empty_dict then ret false else
  do content <- lift (subscript file_data "Content");
  do elements <- lift (py_iter content);
  ret (is_in_loop data elements).

(** The loop of [is_in_position]: [found] and the counter [i] on exit. *)
Fixpoint is_in_position_loop (data : value) (elements : list value) (i : Z)
  : bool * Z :=
  match elements with
  | [] => (false, i)
  | _data :: rest =>
      if py_eq data _data then (true, i)
      else is_in_position_loop data rest (i + 1)
  end.

Definition is_in_position (data : value) : M (bool * Z) :=
  do file_data <- read;
  if is_none file_data then ret (false, -1) else
  if py_eq file_data empty_dict then ret (false, -1) else
  do content <- lift (subscript file_data "Content");
  do elements <- lift (py_iter content);
  ret (is_in_position_loop data elements 0).

Definition clear_content : M bool :=
  try_except
    (with_lock
       (do ex <- os_path_exists;
        if negb ex then ret false else
        do size <- os_stat_size;
        if negb size then ret false else
        run open_write (Encoded skeleton);
        ret true))
    (fun e =>
       run log_failure e "Fail to clear JSON file %s";
       ret false).

(** The loop of [remove_by_uid]: the index of the element it stops at. *)
Fixpoint remove_loop (element_value : value) (uid : string)
    (elements : list value) (i : nat) : result (option nat) :=
  match elements with
  | [] => Ret None
  | data :: rest =>
      rbind (subscript data uid) (fun x =>
      if py_eq x element_value then Ret (Some i)
      else remove_loop element_value uid rest (S i))
  end.

(** [file_content.remove(data)] for the element [data] at index [i];
    only a list has the method. *)
Definition remove_at (file_content : value) (i : nat) : result value :=
  match file_content with
  | VList xs =>
      match xs !! i with
      | Some data => Ret (VList (list_remove data i xs))
      | None => Raise ValueError
      end
  | _ => Raise AttributeError
  end.

(** [file_content[0]] *)
Definition first_item (file_content : value) : result value :=
  match file_content with
  | VList (x :: _) => Ret x
  | VList [] => Raise IndexError
  | VTuple (x :: _) => Ret x
  | VTuple [] => Raise IndexError
  | VStr s => match chars s with x :: _ => Ret x | [] => Raise IndexError end
  | VDict _ _ => Raise KeyError
  | _ => Raise TypeError
  end.

Definition remove_by_uid (element_value : value) (uid : string) : M bool :=
  do file_content <- read_content;
  if py_eq file_content empty_dict then ret false else
  do elements <- lift (py_iter file_content);
  do hit <- lift (remove_loop element_value uid elements 0);
  do file_content' <- lift (match hit with
                            | Some i => remove_at file_content i
                            | None => Ret file_content
                            end);
  run clear_content;
  if truthy file_content' then
    do first <- lift (first_item file_content');
    run write_content first;
    ret (bool_decide (is_Some hit))
  else ret (bool_decide (is_Some hit)).

(** The dictionary [search_by_uid] returns, with its two keys. *)
Record search_result : Type := SearchResult {
  found : bool;
  data : value
}.

(** The loop of [search_by_uid]. *)
Fixpoint search_loop (element_value : value) (uid : string)
    (elements : list value) : result search_result :=
  match elements with
  | [] => Ret (SearchResult false VNone)
  | element :: rest =>
      if negb (truthy element) then search_loop element_value uid rest
      else
        rbind (subscript element uid) (fun x =>
        if py_eq x element_value then Ret (SearchResult true element)
        else search_loop element_value uid rest)
  end.

Definition search_by_uid (element_value : value) (uid : string)
  : M search_result :=
  do file_data <- read;
  if is_none file_data then ret (SearchResult false VNone) else
  if py_eq file_data empty_dict then ret (SearchResult false VNone) else
  do content <- lift (subscript file_data "Content");
  do elements <- lift (py_iter content);
  lift (search_loop element_value uid elements).

(** The loop of [update]: [found] and the counter [i] on exit. *)
Fixpoint update_loop (data : value) (uid : string)
    (elements : list value) (i : nat) : result (bool * nat) :=
  match elements with
  | [] => Ret (false, i)
  | msg :: rest =>
      rbind (subscript data uid) (fun a =>
      rbind (subscript msg uid) (fun b =>
      if py_eq a b then Ret (true, i)
      else update_loop data uid rest (S i)))
  end.

(** [content[i] = data].  The loops reach it only after a match, hence
    on a list: the elements of a dictionary or of a string are strings,
    and a string subscripted by a field name raises. *)
Definition set_item (content : value) (i : nat) (x : value) : result value :=
  match content with
  | VList xs =>
      if bool_decide (i < length xs)%nat then Ret (VList (<[i:=x]> xs))
      else Raise IndexError
  | _ => Raise TypeError
  end.

(** [file_data["Content"][i] = data], giving [file_data] afterwards. *)
Definition replace_record (file_data : value) (i : nat) (x : value)
  : result value :=
  rbind (subscript file_data "Content") (fun c =>
  rbind (set_item c i x) (fun c' =>
  store file_data "Content" c')).

Definition update (data : value) (uid : string) : M bool :=
  do file_data <- read;
  if is_none file_data then ret false else
  if py_eq file_data empty_dict then ret false else
  do content <- lift (subscript file_data "Content");
  do elements <- lift (py_iter content);
  do scan <- lift (update_loop data uid elements 0);
  if fst scan then
    do file_data' <- lift (replace_record file_data (snd scan) data);
    run write file_data';
    ret true
  else
    run logger_error (ErrorMsg "Element with UID no found in JSON file.");
    ret false.

(** The loop of [update_twice]. *)
Fixpoint update_twice_loop (data : value) (uid1 uid2 : string)
    (elements : list value) (i : nat) : result (bool * nat) :=
  match elements with
  | [] => Ret (false, i)
  | msg :: rest =>
      rbind (subscript data uid1) (fun a1 =>
      rbind (subscript msg uid1) (fun b1 =>
      rbind (if py_eq a1 b1 then
               rbind (subscript data uid2) (fun a2 =>
               rbind (subscript msg uid2) (fun b2 =>
               Ret (py_eq a2 b2)))
             else Ret false) (fun both =>
      if both then Ret (true, i)
      else update_twice_loop data uid1 uid2 rest (S i))))
  end.

Definition update_twice (data : value) (uid1 uid2 : string) : M bool :=
  do file_data <- read;
  if is_none file_data then ret false else
  if py_eq file_data empty_dict then ret false else
  do content <- lift (subscript file_data "Content");
  do elements <- lift (py_iter content);
  do scan <- lift (update_twice_loop data uid1 uid2 elements 0);
  if fst scan then
    do file_data' <- lift (replace_record file_data (snd scan) data);
    run write file_data';
    ret true
  else
    run logger_error (ErrorMsg "Element with UID no found in JSON file.");
    ret false.

End TSjson.
Export TSjson.

(** ** Threads calling [write_content]

    Several threads share one handle, each calling [write_content] with
    its own record.  A thread advances one step at a time and the steps of
    different threads interleave in any order.  A step is one call that
    touches the file system outside the lock ([os.path.exists] on the
    directory, [os.makedirs]), the acquisition of the lock, or the
    statements under the lock together with its release and the [except]
    clause: while one thread holds the lock the others can only look at
    the directory, create it, or wait, none of which the locked statements
    observe. *)

Module Threads.

(** Where a thread stands in [write_content]. *)
Inductive pc : Type :=
| Start                     (* at [if not data] *)
| Checked (present : bool)  (* [os.path.exists(directory)] has answered *)
| Waiting                   (* at [with self.lock] *)
| Holding                   (* the lock is taken *)
| Finished (r : result bool).

(** One step of a thread appending [data]; [None] when it cannot move:
    it has finished, or it waits for a lock that is held. *)
Definition thread_step (data : value) (p : pc) (w : world) : option (pc * world) :=
  match p with
  | Start =>
      if negb (truthy data) then Some (Finished (Ret false), w)
      else
        match os_path_exists_dir w with
        | (Ret present, w') => Some (Checked present, w')
        | (Raise e, w') => Some (Finished (Raise e), w')
        | (Hang, _) => None
        end
  | Checked present =>
      match (if negb present then os_makedirs else ret tt) w with
      | (Ret _, w') => Some (Waiting, w')
      | (Raise e, w') => Some (Finished (Raise e), w')
      | (Hang, _) => None
      end
  | Waiting =>
      match acquire w with
      | (Ret _, w') => Some (Holding, w')
      | _ => None
      end
  | Holding =>
      match
        try_except (release_after (write_content_locked data))
          write_content_except w
      with
      | (r, w') => Some (Finished r, w')
      end
  | Finished _ => None
  end.

(** The handle's world and the threads with the record each appends. *)
Record system : Type := System {
  shared : world;
  threads : list (value * pc)
}.

(** Thread [i] takes a step. *)
Definition step_thread (i : nat) (s : system) : option system :=
  match threads s !! i with
  | Some (data, p) =>
      match thread_step data p (shared s) with
      | Some (p', w') => Some (System w' (<[i := (data, p')]> (threads s)))
      | None => None
      end
  | None => None
  end.

(** An interleaving: the threads that step, in order. *)
Fixpoint run_schedule (schedule : list nat) (s : system) : option system :=
  match schedule with
  | [] => Some s
  | i :: rest =>
      match step_thread i s with
      | Some s' => run_schedule rest s'
      | None => None
      end
  end.

Definition is_finished (p : pc) : bool :=
  match p with Finished _ => true | _ => false end.

Definition all_finished (s : system) : bool :=
  forallb (fun t => is_finished (snd t)) (threads s).

(** Every thread about to call [write_content] with its record. *)
Definition spawn (w : world) (records : list value) : system :=
  System w (map (fun data => (data, Start)) records).

(** A thread running alone, for at most [fuel] steps. *)
Fixpoint run_alone (fuel : nat) (data : value) (p : pc) (w : world)
  : pc * world :=
  match fuel with
  | O => (p, w)
  | S fuel' =>
      match thread_step data p w with
      | Some (p', w') => run_alone fuel' data p' w'
      | None => (p, w)
      end
  end.

End Threads.
Export Threads.

(** ** Notions used in the statements *)

Module Notions.

(** *** Shapes of values *)

(** No key occurs twice. *)
Fixpoint distinct (ks : list string) : bool :=
  match ks with
  | [] => true
  | k :: rest => negb (existsb (String.eqb k) rest) && distinct rest
  end.

(** Every dictionary inside [v] has pairwise distinct keys, as every
    Python dictionary does. *)
Fixpoint well_keyed (v : value) : bool :=
  match v with
  | VList xs => forallb well_keyed xs
  | VTuple xs => forallb well_keyed xs
  | VDict _ items =>
      distinct (keys items) && forallb (fun kv => well_keyed (snd kv)) items
  | _ => true
  end.

(** Every dictionary inside [v] is an [OrderedDict]. *)
Fixpoint all_ordered (v : value) : bool :=
  match v with
  | VList xs => forallb all_ordered xs
  | VTuple xs => forallb all_ordered xs
  | VDict o items => o && forallb (fun kv => all_ordered (snd kv)) items
  | _ => true
  end.

(** No tuple occurs inside [v]: it is made of [None], booleans,
    integers, strings, lists and dictionaries only. *)
Fixpoint tuple_free (v : value) : bool :=
  match v with
  | VList xs => forallb tuple_free xs
  | VTuple _ => false
  | VDict _ items => forallb (fun kv => tuple_free (snd kv)) items
  | _ => true
  end.

(** The same keys, with [f] applied to every value. *)
Definition map_values {A B} (f : A -> B) (items : list (string * A))
  : list (string * B) :=
  map (fun kv => (fst kv, f (snd kv))) items.

(** *** Files, records and outcomes *)

(** The file holds a JSON text that [json.load], with the hook, reads as
    [file_data]. *)
Definition stored (w : world) (file_data : value) : Prop :=
  exists j, file w = Some (Encoded j) /\ decode true j = file_data.

(** The file can be opened but its text is not JSON, or it cannot be
    opened at all. *)
Definition unreadable (w : world) : Prop :=
  file w = Some Malformed
  \/ (exists j, file w = Some (Encoded j) /\ can_read w = false).

(** The world after an [except] clause logged [e] and [msg]. *)
Definition logged (e : exn) (msg : string) (w : world) : world :=
  add_log (ErrorMsg msg) (add_log (Traceback e) w).

(** The record [e] has the field [uid], holding [x]. *)
Definition field (uid : string) (e x : value) : Prop :=
  subscript e uid = Ret x.

(** [search_by_uid] goes past [element]: it is falsy, or it has the
    field with another value. *)
Definition passed_over (element_value : value) (uid : string)
    (element : value) : Prop :=
  truthy element = false
  \/ exists x, field uid element x /\ py_eq x element_value = false.

(** The record [msg] has the field [uid], with a value other than [a]. *)
Definition differs (a : value) (uid : string) (msg : value) : Prop :=
  exists b, field uid msg b /\ py_eq a b = false.

(** The record [e] has the field [uid], and its value does not equal
    [element_value]. *)
Definition not_matching (element_value : value) (uid : string) (e : value)
  : Prop :=
  exists x, field uid e x /\ py_eq x element_value = false.


(** The text of the document whose [Content] lists the given records. *)
Definition document_of (records : list value) : contents :=
  Encoded (JObj [("Content", JArr (map encode records))]).




(** The directory of the file exists, or [os.makedirs] can make it. *)
Definition directory_available (w : world) : Prop :=
  dir_exists w = true \/ makedirs_ok w = true.

(** *** Interleaved appends *)

(** The thread is inside [with self.lock]. *)
Definition is_holding (p : pc) : bool :=
  match p with Holding => true | _ => false end.

(** The number of threads that hold the lock. *)
Definition holders (ts : list (value * pc)) : nat :=
  length (List.filter (fun t => is_holding (snd t)) ts).

(** The records of the threads that have finished. *)
Definition finished_data (ts : list (value * pc)) : list value :=
  map fst (List.filter (fun t => is_finished (snd t)) ts).

(** The steps a thread still has to take. *)
Definition remaining (p : pc) : nat :=
  match p with
  | Start => 4
  | Checked _ => 3
  | Waiting => 2
  | Holding => 1
  | Finished _ => 0
  end.

(** The steps all threads together still have to take. *)
Definition measure (ts : list (value * pc)) : nat :=
  list_sum (map (fun t => remaining (snd t)) ts).

(** The file after the records [appended] went in, in that order. *)
Definition file_of (appended : list value) : option contents :=
  match appended with
  | [] => None
  | _ => Some (document_of appended)
  end.

(** A thread on its way in a world whose directory exists: a check
    answered "present", and a finished call returned [True]. *)
Definition on_track (t : value * pc) : Prop :=
  match snd t with
  | Checked present => present = true
  | Finished r => r = Ret true
  | _ => True
  end.

(** A record [write_content] accepts: truthy, with distinct keys. *)
Definition appendable (data : value) : Prop :=
  truthy data = true /\ well_keyed data = true.

(** What every interleaving keeps true when the threads append
    [records] to a fresh file in an existing directory: the lock is held
    by exactly the thread inside it, if any, and the file lists the records
    of the finished threads. *)
Record invariant (records : list value) (s : system) : Prop := Invariant {
  inv_records : map fst (threads s) = records;
  inv_dir : dir_exists (shared s) = true;
  inv_read : can_read (shared s) = true;
  inv_write : can_write (shared s) = true;
  inv_lock : holders (threads s) = if lock_held (shared s) then 1%nat else 0%nat;
  inv_track : Forall on_track (threads s);
  inv_file : exists appended,
      file (shared s) = file_of appended
      /\ Permutation appended (finished_data (threads s))
}.

End Notions.
Export Notions.

(** ** Further notions *)

Module MoreNotions.

(** What [json.load], with the hook, reads back from the dump of [v]. *)
Definition reread (v : value) : value := decode true (encode v).

(** A value as [json.load] with the hook builds them: distinct keys,
    [OrderedDict]s only, no tuple. *)
Definition file_shaped (v : value) : Prop :=
  well_keyed v = true /\ all_ordered v = true /\ tuple_free v = true.

(** The world [w] with another log. *)
Definition relog (lg : list log_entry) (w : world) : world :=
  World (file w) (dir_exists w) (makedirs_ok w) (can_read w) (can_write w)
        (can_remove w) (lock_held w) lg.

(** Whatever its outcome, [m] changes nothing in the world but the log. *)
Definition only_logs {A} (m : M A) : Prop :=
  forall w, exists lg, snd (m w) = relog lg w.

(** [m] never blocks and leaves the lock as it found it. *)
Definition lock_neutral {A} (m : M A) : Prop :=
  forall w, fst (m w) <> Hang /\ lock_held (snd (m w)) = lock_held w.

(** Started with the lock free, [m] does not block and ends with the
    lock free, whether it returns or raises. *)
Definition lock_safe {A} (m : M A) : Prop :=
  forall w, lock_held w = false ->
            fst (m w) <> Hang /\ lock_held (snd (m w)) = false.

(** The same outcome, with [f] applied to a returned value. *)
Definition result_map {A B} (f : A -> B) (r : result A) : result B :=
  match r with
  | Ret a => Ret (f a)
  | Raise e => Raise e
  | Hang => Hang
  end.

(** There is no document to read: the file is absent, empty or
    unreadable. *)
Definition no_document (w : world) : Prop :=
  file w = None \/ file w = Some Blank \/ unreadable w.

(** A path without a directory part: the directory name is empty, does
    not exist and cannot be made. *)
Definition no_directory (w : world) : Prop :=
  dir_exists w = false /\ makedirs_ok w = false.


(** *** What the methods with a [try] do, case by case

    In each case the method returns; where an exception was raised under
    the [try], the world is the one the exception left, with the traceback
    and the message of the [except] clause added to the log, and the value
    is the method's failure value. *)






(** No two threads are inside [with self.lock]. *)
Definition mutual_exclusion (s : system) : Prop :=
  (holders (threads s) <= 1)%nat.

End MoreNotions.
Export MoreNotions.

(** ** Sample worlds and documents *)

Module Samples.

(** A path whose directory exists, with no file yet. *)
Definition fresh : world := World None true true true true true false [].

(** The same directory with a file of the given text. *)
Definition with_text (c : contents) : world :=
  World (Some c) true true true true true false [].

(** The file is the JSON text of [j]. *)
Definition holding (j : json) : world := with_text (Encoded j).

(** The record [{"id": id, "v": v}]. *)
Definition record (id : Z) (v : string) : json :=
  JObj [("id", JInt id); ("v", JStr v)].

(** The document [{"Content": records}]. *)
Definition document (records : list json) : json :=
  JObj [("Content", JArr records)].

Definition two_records : json := document [record 1 "a"; record 2 "b"].

Definition three_records : json :=
  document [record 1 "a"; record 2 "b"; record 3 "c"].

(** A path without a directory part, such as ["data.json"]: its
    directory name is the empty string, which does not exist and cannot be
    made. *)
Definition bare_path : world :=
  World None false false true true true false [].

(** A fresh path in a directory that does not exist yet and can be
    made. *)
Definition missing_directory : world :=
  World None false true true true true false [].

(** A document whose first record has no ["id"], the second has. *)
Definition id_missing_first : json :=
  document [JObj [("v", JStr "a")]; record 2 "b"].

(** A document whose first record is the number [5]. *)
Definition number_first : json := document [JInt 5; record 2 "b"].




(** A document without the [Content] key. *)
Definition no_content : json := JObj [("a", JInt 1)].


End Samples.

(** ** Facts about values and the codec *)

Module ValueFacts.

Section ValueInduction.
Variable P : value -> Prop.
Hypothesis Hnone : P VNone.
Hypothesis Hbool : forall b, P (VBool b).
Hypothesis Hint : forall n, P (VInt n).
Hypothesis Hstr : forall s, P (VStr s).
Hypothesis Hlist : forall xs, Forall P xs -> P (VList xs).
Hypothesis Htuple : forall xs, Forall P xs -> P (VTuple xs).
Hypothesis Hdict :
  forall o items, Forall (fun kv => P (snd kv)) items -> P (VDict o items).

Fixpoint value_ind (v : value) : P v :=
  match v with
  | VNone => Hnone
  | VBool b => Hbool b
  | VInt n => Hint n
  | VStr s => Hstr s
  | VList xs =>
      Hlist xs
        ((fix each (l : list value) : Forall P l :=
            match l with
            | [] => List.Forall_nil P
            | x :: l' => List.Forall_cons P x l' (value_ind x) (each l')
            end) xs)
  | VTuple xs =>
      Htuple xs
        ((fix each (l : list value) : Forall P l :=
            match l with
            | [] => List.Forall_nil P
            | x :: l' => List.Forall_cons P x l' (value_ind x) (each l')
            end) xs)
  | VDict o items =>
      Hdict o items
        ((fix each (l : list (string * value)) : Forall (fun kv => P (snd kv)) l :=
            match l with
            | [] => List.Forall_nil _
            | kv :: l' =>
                List.Forall_cons (fun kv => P (snd kv)) kv l'
                  (value_ind (snd kv)) (each l')
            end) items)
  end.

End ValueInduction.

Section JsonInduction.
Variable P : json -> Prop.
Hypothesis Hnull : P JNull.
Hypothesis Hbool : forall b, P (JBool b).
Hypothesis Hint : forall n, P (JInt n).
Hypothesis Hstr : forall s, P (JStr s).
Hypothesis Harr : forall xs, Forall P xs -> P (JArr xs).
Hypothesis Hobj :
  forall members, Forall (fun kj => P (snd kj)) members -> P (JObj members).

Fixpoint json_ind (j : json) : P j :=
  match j with
  | JNull => Hnull
  | JBool b => Hbool b
  | JInt n => Hint n
  | JStr s => Hstr s
  | JArr xs =>
      Harr xs
        ((fix each (l : list json) : Forall P l :=
            match l with
            | [] => List.Forall_nil P
            | x :: l' => List.Forall_cons P x l' (json_ind x) (each l')
            end) xs)
  | JObj members =>
      Hobj members
        ((fix each (l : list (string * json)) : Forall (fun kj => P (snd kj)) l :=
            match l with
            | [] => List.Forall_nil _
            | kj :: l' =>
                List.Forall_cons (fun kj => P (snd kj)) kj l'
                  (json_ind (snd kj)) (each l')
            end) members)
  end.

End JsonInduction.

(** *** Dictionaries *)

Lemma dict_get_In {A} k (items : list (string * A)) x :
  dict_get k items = Some x -> In (k, x) items.
Proof.
  induction items as [|[k' v] rest IH]; simpl; [done|].
  destruct (String.eqb_spec k k') as [->|Hne].
  - intros [= ->]. by left.
  - intros H. right. by apply IH.
Qed.

Lemma dict_get_set_eq {A} k (v : A) items :
  dict_get k (dict_set k v items) = Some v.
Proof.
  induction items as [|[k' v'] rest IH]; simpl.
  - by rewrite String.eqb_refl.
  - destruct (String.eqb_spec k k') as [->|Hne]; simpl.
    + by rewrite String.eqb_refl.
    + destruct (String.eqb_spec k k'); [done|]. apply IH.
Qed.

Lemma dict_get_set_ne {A} k k' (v : A) items :
  k <> k' -> dict_get k' (dict_set k v items) = dict_get k' items.
Proof.
  intros Hne. induction items as [|[k0 v0] rest IH]; simpl.
  - destruct (String.eqb_spec k' k); [congruence|done].
  - destruct (String.eqb_spec k k0) as [->|Hne0]; simpl.
    + destruct (String.eqb_spec k' k0); [congruence|done].
    + destruct (String.eqb_spec k' k0); [done|]. apply IH.
Qed.

Lemma dict_set_fresh {A} k (v : A) items :
  existsb (String.eqb k) (keys items) = false ->
  dict_set k v items = items ++ [(k, v)].
Proof.
  induction items as [|[k' v'] rest IH]; simpl; [done|].
  intros [Hk Hrest]%orb_false_elim. rewrite Hk. f_equal. by apply IH.
Qed.

Lemma dict_set_values {A} (Q : A -> Prop) k v items :
  Q v -> Forall (fun kv => Q (snd kv)) items ->
  Forall (fun kv => Q (snd kv)) (dict_set k v items).
Proof.
  intros Hv. induction 1 as [|[k' v'] rest Hx Hrest IH]; simpl.
  - by repeat constructor.
  - destruct (String.eqb k k'); by constructor.
Qed.

Lemma dict_of_pairs_values {A} (Q : A -> Prop) pairs :
  Forall (fun kv => Q (snd kv)) pairs ->
  Forall (fun kv => Q (snd kv)) (dict_of_pairs pairs).
Proof.
  unfold dict_of_pairs. generalize (@nil (string * A)) (List.Forall_nil (fun kv : string * A => Q (snd kv))).
  intros acc Hacc H. revert acc Hacc.
  induction H as [|kv rest Hkv Hrest IH]; intros acc Hacc; simpl; [done|].
  apply IH. by apply dict_set_values.
Qed.

Lemma existsb_app_false {A} (f : A -> bool) xs ys :
  existsb f (xs ++ ys) = false <->
  existsb f xs = false /\ existsb f ys = false.
Proof. rewrite existsb_app. apply orb_false_iff. Qed.

Lemma distinct_app_cons k acc rest :
  distinct (acc ++ k :: rest) = true ->
  existsb (String.eqb k) acc = false /\ distinct ((acc ++ [k]) ++ rest) = true.
Proof.
  induction acc as [|a acc IH]; simpl.
  - intros H. split; [done|]. exact H.
  - intros [Ha Hd]%andb_true_iff. destruct (IH Hd) as [Hk Hd'].
    apply negb_true_iff, existsb_app_false in Ha as [Ha1 Ha2]. simpl in Ha2.
    apply orb_false_elim in Ha2 as [Hak Ha2].
    split.
    + apply orb_false_intro; [|done]. by rewrite String.eqb_sym.
    + apply andb_true_iff. split; [|done].
      apply negb_true_iff. rewrite <- app_assoc. simpl.
      apply existsb_app_false. split; [done|]. simpl. by rewrite Hak, Ha2.
Qed.

(** With distinct keys, building a dictionary from pairs keeps them all,
    in order. *)
Lemma dict_of_pairs_distinct {A} (pairs : list (string * A)) :
  distinct (keys pairs) = true -> dict_of_pairs pairs = pairs.
Proof.
  unfold dict_of_pairs.
  enough (H : forall acc, distinct (keys (acc ++ pairs)) = true ->
              fold_left (fun d kv => dict_set (fst kv) (snd kv) d) pairs acc
              = acc ++ pairs) by apply (H []).
  induction pairs as [|[k v] rest IH]; intros acc Hd; simpl.
  - by rewrite app_nil_r.
  - unfold keys in Hd. rewrite map_app in Hd. simpl in Hd.
    apply distinct_app_cons in Hd as [Hk Hd].
    rewrite dict_set_fresh by done.
    rewrite IH.
    + by rewrite <- app_assoc.
    + unfold keys. by rewrite !map_app.
Qed.

(** *** Equality *)

Lemma all2_Forall2 {A B} (eq : A -> B -> bool) xs ys :
  all2 eq xs ys = true <-> Forall2 (fun x y => eq x y = true) xs ys.
Proof.
  revert ys. induction xs as [|x xs IH]; intros [|y ys]; simpl.
  - split; [constructor|done].
  - split; [done|inversion 1].
  - split; [done|inversion 1].
  - rewrite andb_true_iff, IH. split.
    + intros [? ?]. by constructor.
    + inversion 1; by subst.
Qed.

Lemma entries_in_Forall {A B} (eq : A -> B -> bool) ia ib :
  entries_in eq ia ib = true <->
  Forall (fun kv => exists w, dict_get (fst kv) ib = Some w /\ eq (snd kv) w = true) ia.
Proof.
  induction ia as [|[k v] ia IH]; simpl.
  - split; [constructor|done].
  - rewrite andb_true_iff, IH. split.
    + intros [Hk ?]. constructor; [|done]. simpl.
      destruct (dict_get k ib) as [w|]; [|done]. by exists w.
    + inversion 1 as [|? ? (w & Hw & Heq) ?]; subst. simpl in *.
      by rewrite Hw.
Qed.

Lemma same_keys_keys {A B} (xs : list (string * A)) (ys : list (string * B)) :
  same_keys xs ys = true <-> keys xs = keys ys.
Proof.
  revert ys. induction xs as [|[k a] xs IH]; intros [|[k' b] ys]; simpl; try done.
  rewrite andb_true_iff, IH. split.
  - intros [->%String.eqb_eq ->]. done.
  - intros [= -> ->]. by rewrite String.eqb_refl.
Qed.

Lemma py_eq_dict oa ia ob ib :
  py_eq (VDict oa ia) (VDict ob ib) = true <->
  length ia = length ib
  /\ Forall (fun kv => exists w, dict_get (fst kv) ib = Some w
                                 /\ py_eq (snd kv) w = true) ia
  /\ (oa && ob = true -> keys ia = keys ib).
Proof.
  cbn [py_eq].
  destruct (oa && ob);
    rewrite !andb_true_iff, Nat.eqb_eq, entries_in_Forall, ?same_keys_keys.
  - split; [intros [[? ?] ?]; auto|intros (? & ? & ?); auto].
  - split; [intros [[? ?] _]; repeat split; auto; discriminate|intros (? & ? & _); auto].
Qed.

Lemma all_ordered_list xs :
  all_ordered (VList xs) = true <-> Forall (fun x => all_ordered x = true) xs.
Proof. simpl. rewrite forallb_forall, List.Forall_forall. done. Qed.

Lemma all_ordered_tuple xs :
  all_ordered (VTuple xs) = true <-> Forall (fun x => all_ordered x = true) xs.
Proof. simpl. rewrite forallb_forall, List.Forall_forall. done. Qed.

Lemma all_ordered_dict o items :
  all_ordered (VDict o items) = true <->
  o = true /\ Forall (fun kv => all_ordered (snd kv) = true) items.
Proof.
  simpl. rewrite andb_true_iff, forallb_forall, List.Forall_forall. done.
Qed.

(** Under the hook, [json.load] builds [OrderedDict]s only. *)
Lemma all_ordered_decode j : all_ordered (decode true j) = true.
Proof.
  induction j as [| | | |xs IH|members IH] using json_ind; try done.
  - apply all_ordered_list. rewrite List.Forall_map.
    eapply List.Forall_impl; [|exact IH]. done.
  - cbn [decode]. apply all_ordered_dict. split; [done|].
    apply (dict_of_pairs_values (fun v => all_ordered v = true)).
    rewrite List.Forall_map. eapply List.Forall_impl; [|exact IH]. done.
Qed.

Lemma all_ordered_subscript v key x :
  all_ordered v = true -> subscript v key = Ret x -> all_ordered x = true.
Proof.
  destruct v as [| | | | | |o items]; try done. simpl subscript.
  intros [_ Hall]%all_ordered_dict.
  destruct (dict_get key items) as [y|] eqn:Hget; [|done].
  intros [= ->]. apply dict_get_In in Hget.
  rewrite List.Forall_forall in Hall. by apply (Hall _ Hget).
Qed.

(** Equal dictionaries agree on every field. *)
Lemma py_eq_subscript a b key x :
  py_eq a b = true -> subscript a key = Ret x ->
  exists y, subscript b key = Ret y /\ py_eq x y = true.
Proof.
  destruct a as [| | | | | |oa ia]; try done.
  destruct b as [| | | | | |ob ib]; try done.
  intros (_ & Hent & _)%py_eq_dict. simpl.
  destruct (dict_get key ia) as [x'|] eqn:Hget; [|done].
  intros [= ->].
  enough (exists w, dict_get key ib = Some w /\ py_eq x w = true) as (w & -> & ?)
    by eauto.
  induction Hent as [|[k v] ia (w & Hw & Hvw) Hrest IH]; simpl in *; [done|].
  destruct (String.eqb_spec key k) as [->|Hne].
  - injection Hget as ->. eauto.
  - by apply IH.
Qed.

Ltac numeric_eq :=
  simpl in *;
  repeat match goal with
         | b : bool |- _ => destruct b
         end;
  simpl in *;
  repeat match goal with
         | H : Z.eqb _ _ = true |- _ => apply Z.eqb_eq in H; subst
         end;
  rewrite ?Z.eqb_refl; try done.

Lemma all2_py_eq_trans xs :
  Forall (fun a => forall b c,
            all_ordered a = true -> all_ordered b = true ->
            py_eq a b = true -> py_eq b c = true -> py_eq a c = true) xs ->
  forall ys zs,
    Forall (fun x => all_ordered x = true) xs ->
    Forall (fun y => all_ordered y = true) ys ->
    all2 py_eq xs ys = true -> all2 py_eq ys zs = true ->
    all2 py_eq xs zs = true.
Proof.
  intros IH ys zs Ha Hb. rewrite !all2_Forall2. revert ys zs Ha Hb.
  induction IH as [|x xs IHx _ IHxs]; intros ys zs Ha Hb Hab Hbc.
  - inversion Hab; subst. inversion Hbc; subst. constructor.
  - inversion Hab as [|? y ? ys' Hxy Hrest]; subst.
    inversion Hbc as [|? z ? zs' Hyz Hrest']; subst.
    inversion Ha; subst. inversion Hb; subst.
    constructor; [by eapply IHx|by eapply IHxs].
Qed.

(** Two values read from files that are equal compare alike with any
    third value. *)
Lemma py_eq_trans_ordered a :
  forall b c,
    all_ordered a = true -> all_ordered b = true ->
    py_eq a b = true -> py_eq b c = true -> py_eq a c = true.
Proof.
  induction a as [|x|n|s|xs IH|xs IH|oa ia IH] using value_ind;
    intros b c Ha Hb Hab Hbc.
  - destruct b; try done.
  - destruct b as [|y|m| | | |]; try done; destruct c as [|z|k| | | |]; try done;
      numeric_eq.
  - destruct b as [|y|m| | | |]; try done; destruct c as [|z|k| | | |]; try done;
      numeric_eq.
  - destruct b; try done; destruct c; try done; simpl in *.
    apply String.eqb_eq in Hab, Hbc. subst. apply String.eqb_refl.
  - destruct b as [| | | |ys| |]; try done; destruct c as [| | | |zs| |]; try done.
    apply all_ordered_list in Ha, Hb. cbn [py_eq] in *.
    by apply (all2_py_eq_trans xs IH ys zs).
  - destruct b as [| | | | |ys|]; try done; destruct c as [| | | | |zs|]; try done.
    apply all_ordered_tuple in Ha, Hb. cbn [py_eq] in *.
    by apply (all2_py_eq_trans xs IH ys zs).
  - destruct b as [| | | | | |ob ib]; try done; destruct c as [| | | | | |oc ic]; try done.
    apply all_ordered_dict in Ha as [-> Ha], Hb as [-> Hb].
    apply py_eq_dict in Hab as (Hlen1 & Hent1 & Hkeys1).
    apply py_eq_dict in Hbc as (Hlen2 & Hent2 & Hkeys2).
    apply py_eq_dict. split; [congruence|]. split.
    + rewrite List.Forall_forall in *. intros [k v] Hin. simpl.
      destruct (Hent1 _ Hin) as (w & Hw & Hvw). simpl in *.
      pose proof (dict_get_In _ _ _ Hw) as Hinb.
      destruct (Hent2 _ Hinb) as (u & Hu & Hwu). simpl in *.
      exists u. split; [done|].
      apply (IH _ Hin w u); [by apply (Ha _ Hin)|by apply (Hb _ Hinb)|done|done].
    + intros Hoc. rewrite Hkeys1 by done. by apply Hkeys2.
Qed.

(** *** The codec on well-keyed values *)

Lemma existsb_key_In {A} k (v : A) items :
  In (k, v) items -> existsb (String.eqb k) (keys items) = true.
Proof.
  intros Hin. apply existsb_exists. exists k. split; [|apply String.eqb_refl].
  apply in_map_iff. by exists (k, v).
Qed.

Lemma dict_get_distinct {A} k (v : A) items :
  distinct (keys items) = true -> In (k, v) items -> dict_get k items = Some v.
Proof.
  induction items as [|[k0 v0] rest IH]; simpl; [done|].
  intros [Hfresh Hd]%andb_true_iff [[= -> ->]|Hin].
  - by rewrite String.eqb_refl.
  - destruct (String.eqb_spec k k0) as [->|Hne]; [|by apply IH].
    apply negb_true_iff in Hfresh.
    by rewrite (existsb_key_In _ _ _ Hin) in Hfresh.
Qed.

Lemma keys_map_values {A B} (f : A -> B) items :
  keys (map_values f items) = keys items.
Proof. unfold keys, map_values. rewrite map_map. done. Qed.

Lemma well_keyed_list xs :
  well_keyed (VList xs) = true <-> Forall (fun x => well_keyed x = true) xs.
Proof. simpl. rewrite forallb_forall, List.Forall_forall. done. Qed.

Lemma well_keyed_tuple xs :
  well_keyed (VTuple xs) = true <-> Forall (fun x => well_keyed x = true) xs.
Proof. simpl. rewrite forallb_forall, List.Forall_forall. done. Qed.

Lemma tuple_free_list xs :
  tuple_free (VList xs) = true <-> Forall (fun x => tuple_free x = true) xs.
Proof. simpl. rewrite forallb_forall, List.Forall_forall. done. Qed.

Lemma tuple_free_dict o items :
  tuple_free (VDict o items) = true <->
  Forall (fun kv => tuple_free (snd kv) = true) items.
Proof. simpl. rewrite forallb_forall, List.Forall_forall. done. Qed.

(** [json.load] builds no tuple. *)
Lemma tuple_free_decode hook j : tuple_free (decode hook j) = true.
Proof.
  induction j as [| | | |xs IH|members IH] using json_ind; try done.
  - apply tuple_free_list. rewrite List.Forall_map.
    eapply List.Forall_impl; [|exact IH]. done.
  - cbn [decode]. apply tuple_free_dict.
    apply (dict_of_pairs_values (fun v => tuple_free v = true)).
    rewrite List.Forall_map. eapply List.Forall_impl; [|exact IH]. done.
Qed.

Lemma well_keyed_dict o items :
  well_keyed (VDict o items) = true <->
  distinct (keys items) = true
  /\ Forall (fun kv => well_keyed (snd kv) = true) items.
Proof.
  simpl. rewrite andb_true_iff, forallb_forall, List.Forall_forall. done.
Qed.

Lemma decode_encode_dict hook o items :
  distinct (keys items) = true ->
  decode hook (encode (VDict o items))
  = VDict hook (map_values (fun v => decode hook (encode v)) items).
Proof.
  intros Hd. cbn [encode decode]. f_equal. rewrite map_map. simpl.
  apply dict_of_pairs_distinct. by rewrite (keys_map_values _ items).
Qed.

(** What [json.load] reads back from the dump of a value without tuples
    equals it, on either side of [==]. *)
Lemma py_eq_decode_encode hook v :
  well_keyed v = true -> tuple_free v = true ->
  py_eq v (decode hook (encode v)) = true
  /\ py_eq (decode hook (encode v)) v = true.
Proof.
  induction v as [|b|n|s|xs IH|xs IH|o items IH] using value_ind;
    intros Hwk Hfree.
  - done.
  - simpl. by destruct b.
  - simpl. by rewrite Z.eqb_refl.
  - simpl. by rewrite String.eqb_refl.
  - apply well_keyed_list in Hwk. apply tuple_free_list in Hfree.
    cbn [encode decode py_eq].
    rewrite map_map, !all2_Forall2.
    induction IH as [|x xs IHx _ IHxs]; simpl; [by split; constructor|].
    inversion Hwk; subst. inversion Hfree; subst.
    destruct IHx as [? ?]; [done..|]. destruct IHxs as [? ?]; [done..|].
    split; by constructor.
  - done.
  - apply well_keyed_dict in Hwk as [Hd Hwk].
    apply tuple_free_dict in Hfree.
    rewrite decode_encode_dict by done.
    set (f := fun v => decode hook (encode v)).
    assert (Hd' : distinct (keys (map_values f items)) = true)
      by by rewrite keys_map_values.
    rewrite List.Forall_forall in IH, Hwk, Hfree.
    split; apply py_eq_dict.
    + split; [by unfold map_values; rewrite length_map|]. split.
      * apply List.Forall_forall. intros [k v] Hin. exists (f v). split.
        -- apply dict_get_distinct; [done|].
           apply in_map_iff. by exists (k, v).
        -- by apply (IH _ Hin); [apply (Hwk _ Hin)|apply (Hfree _ Hin)].
      * intros _. by rewrite keys_map_values.
    + split; [by unfold map_values; rewrite length_map|]. split.
      * apply List.Forall_forall. intros [k v'] Hin.
        apply in_map_iff in Hin as ([k0 v] & [= -> <-] & Hin). exists v. split.
        -- by apply dict_get_distinct.
        -- by apply (IH _ Hin); [apply (Hwk _ Hin)|apply (Hfree _ Hin)].
      * intros _. by rewrite keys_map_values.
Qed.

(** Dumping what was read back from a dump gives the same text. *)
Lemma encode_decode_encode hook v :
  well_keyed v = true -> encode (decode hook (encode v)) = encode v.
Proof.
  induction v as [|b|n|s|xs IH|xs IH|o items IH] using value_ind;
    intros Hwk; try done.
  - apply well_keyed_list in Hwk. cbn [encode decode]. f_equal.
    rewrite !map_map.
    induction IH as [|x xs IHx _ IHxs]; simpl; [done|].
    inversion Hwk; subst. f_equal; auto.
  - apply well_keyed_tuple in Hwk. cbn [encode decode]. f_equal.
    rewrite !map_map.
    induction IH as [|x xs IHx _ IHxs]; simpl; [done|].
    inversion Hwk; subst. f_equal; auto.
  - apply well_keyed_dict in Hwk as [Hd Hwk].
    rewrite decode_encode_dict by done. cbn [encode]. f_equal.
    unfold map_values. rewrite map_map. simpl.
    clear Hd. induction IH as [|[k v] rest IHx _ IHrest]; simpl; [done|].
    inversion Hwk; subst. simpl in *. f_equal; [f_equal|]; auto.
Qed.

End ValueFacts.

(** ** Facts about the raw operations *)

Module StoreFacts.
Import ValueFacts.

Ltac unfold_ops :=
  cbv [read write delete read_content write_content clear_content
       is_in is_in_position search_by_uid update update_twice remove_by_uid
       write_content_locked write_content_except
       try_except with_lock acquire release_after
       bind ret lift raise logger_error log_failure
       os_path_exists os_stat_size os_path_exists_dir os_makedirs
       open_read open_write os_remove logged].

Ltac open_world w :=
  destruct w as [f d mk r wr rm l lg]; simpl in *; subst.

Lemma read_absent w :
  lock_held w = false -> file w = None -> read w = (Ret empty_dict, w).
Proof. intros. open_world w. done. Qed.

Lemma read_blank w :
  lock_held w = false -> file w = Some Blank -> read w = (Ret empty_dict, w).
Proof. intros. open_world w. done. Qed.

Lemma read_encoded w j :
  lock_held w = false -> can_read w = true -> file w = Some (Encoded j) ->
  read w = (Ret (decode true j), w).
Proof. intros. open_world w. done. Qed.

Lemma read_unreadable w :
  lock_held w = false -> unreadable w ->
  exists e, read w = (Ret VNone, logged e "Fail to read JSON file %s" w).
Proof.
  intros Hl [Hf|(j & Hf & Hr)]; open_world w.
  - destruct r; [by exists ValueError|by exists OSError].
  - by exists OSError.
Qed.

Lemma read_stored w file_data :
  lock_held w = false -> can_read w = true -> stored w file_data ->
  read w = (Ret file_data, w).
Proof. intros Hl Hr (j & Hf & <-). by apply read_encoded. Qed.

Lemma bind_ret {A B} (m : M A) (k : A -> M B) w a w' :
  m w = (Ret a, w') -> bind m k w = k a w'.
Proof. unfold bind. by intros ->. Qed.

Lemma bind_raise {A B} (m : M A) (k : A -> M B) w e w' :
  m w = (Raise e, w') -> bind m k w = (Raise e, w').
Proof. unfold bind. by intros ->. Qed.

Lemma py_eq_empty_dict o items key x :
  dict_get key items = Some x -> py_eq (VDict o items) empty_dict = false.
Proof. by destruct items. Qed.

Lemma read_content_absent w :
  lock_held w = false -> file w = None \/ file w = Some Blank ->
  read_content w = (Ret empty_dict, w).
Proof.
  intros Hl [Hf|Hf]; unfold read_content.
  - by rewrite (bind_ret _ _ _ _ _ (read_absent w Hl Hf)).
  - by rewrite (bind_ret _ _ _ _ _ (read_blank w Hl Hf)).
Qed.

Lemma read_content_unreadable w :
  lock_held w = false -> unreadable w ->
  exists e, read_content w
            = (Ret empty_dict, logged e "Fail to read JSON file %s" w).
Proof.
  intros Hl Hu. destruct (read_unreadable w Hl Hu) as [e He].
  exists e. unfold read_content. by rewrite (bind_ret _ _ _ _ _ He).
Qed.

Lemma read_content_stored w o items content :
  lock_held w = false -> can_read w = true ->
  stored w (VDict o items) -> dict_get "Content" items = Some content ->
  read_content w = (Ret content, w).
Proof.
  intros Hl Hr Hs Hc. unfold read_content.
  rewrite (bind_ret _ _ _ _ _ (read_stored w _ Hl Hr Hs)).
  cbn [is_none]. rewrite (py_eq_empty_dict _ _ _ _ Hc).
  unfold lift, subscript. by rewrite Hc.
Qed.

(** *** The scanning loops *)

Lemma is_in_position_loop_found data pre r post i :
  Forall (fun x => py_eq data x = false) pre -> py_eq data r = true ->
  is_in_position_loop data (pre ++ r :: post) i
  = (true, i + Z.of_nat (length pre)).
Proof.
  intros Hpre Hr. revert i.
  induction Hpre as [|x pre Hx _ IH]; intros i; simpl.
  - rewrite Hr. f_equal. lia.
  - rewrite Hx, IH. f_equal. lia.
Qed.

Lemma is_in_position_loop_missing data xs i :
  Forall (fun x => py_eq data x = false) xs ->
  is_in_position_loop data xs i = (false, i + Z.of_nat (length xs)).
Proof.
  intros Hxs. revert i.
  induction Hxs as [|x xs Hx _ IH]; intros i; simpl.
  - f_equal. lia.
  - rewrite Hx, IH. f_equal. lia.
Qed.

Lemma is_in_position_stored w o items xs data :
  lock_held w = false -> can_read w = true ->
  stored w (VDict o items) -> dict_get "Content" items = Some (VList xs) ->
  is_in_position data w = (Ret (is_in_position_loop data xs 0), w).
Proof.
  intros Hl Hr Hs Hc. unfold is_in_position.
  rewrite (bind_ret _ _ _ _ _ (read_stored w _ Hl Hr Hs)).
  cbn [is_none]. rewrite (py_eq_empty_dict _ _ _ _ Hc).
  unfold lift, bind, subscript. by rewrite Hc.
Qed.

Lemma field_truthy uid e x : field uid e x -> truthy e = true.
Proof.
  unfold field. destruct e as [| | | | | |o items]; try done.
  by destruct items.
Qed.

Lemma search_loop_found element_value uid pre r x post :
  Forall (passed_over element_value uid) pre ->
  field uid r x -> py_eq x element_value = true ->
  search_loop element_value uid (pre ++ r :: post)
  = Ret (SearchResult true r).
Proof.
  intros Hpre Hr Hx.
  induction Hpre as [|e pre [He|(y & He & Hy)] _ IH]; simpl.
  - rewrite (field_truthy _ _ _ Hr). simpl. unfold field in Hr.
    by rewrite Hr; simpl; rewrite Hx.
  - by rewrite He.
  - rewrite (field_truthy _ _ _ He). simpl. unfold field in He.
    by rewrite He; simpl; rewrite Hy.
Qed.

Lemma search_loop_missing element_value uid xs :
  Forall (passed_over element_value uid) xs ->
  search_loop element_value uid xs = Ret (SearchResult false VNone).
Proof.
  induction 1 as [|e xs [He|(y & He & Hy)] _ IH]; simpl.
  - done.
  - by rewrite He.
  - rewrite (field_truthy _ _ _ He). simpl. unfold field in He.
    by rewrite He; simpl; rewrite Hy.
Qed.

Lemma search_by_uid_stored w o items xs element_value uid :
  lock_held w = false -> can_read w = true ->
  stored w (VDict o items) -> dict_get "Content" items = Some (VList xs) ->
  search_by_uid element_value uid w = (search_loop element_value uid xs, w).
Proof.
  intros Hl Hr Hs Hc. unfold search_by_uid.
  rewrite (bind_ret _ _ _ _ _ (read_stored w _ Hl Hr Hs)).
  cbn [is_none]. rewrite (py_eq_empty_dict _ _ _ _ Hc).
  unfold lift, bind, subscript. by rewrite Hc.
Qed.

(** *** [write] *)


Lemma write_done data w :
  lock_held w = false -> dir_exists w = true -> can_write w = true ->
  truthy data = true ->
  write data w = (Ret true, set_file (Some (Encoded (encode data))) w).
Proof. intros Hl Hd Hw Ht. open_world w. unfold write. by rewrite Ht. Qed.

Lemma write_makes_directory data w :
  lock_held w = false -> dir_exists w = false -> makedirs_ok w = true ->
  can_write w = true -> truthy data = true ->
  write data w
  = (Ret true,
     set_file (Some (Encoded (encode data))) (set_dir_exists true w)).
Proof. intros Hl Hd Hm Hw Ht. open_world w. unfold write. by rewrite Ht. Qed.

(** *** [update] *)

Lemma update_loop_found data uid a pre r b post i :
  field uid data a -> Forall (differs a uid) pre ->
  field uid r b -> py_eq a b = true ->
  update_loop data uid (pre ++ r :: post) i = Ret (true, (i + length pre)%nat).
Proof.
  unfold field. intros Ha Hpre Hr Hab. revert i.
  induction Hpre as [|e pre (y & He & Hy) _ IH]; intros i; simpl.
  - rewrite Ha; simpl. rewrite Hr; simpl. rewrite Hab. do 2 f_equal. lia.
  - unfold field in He. rewrite Ha; simpl. rewrite He; simpl. rewrite Hy, IH.
    do 2 f_equal. lia.
Qed.


Lemma insert_middle {A} (pre : list A) r post x :
  <[length pre := x]> (pre ++ r :: post) = pre ++ x :: post.
Proof. induction pre as [|y pre IH]; simpl; [done|]. by rewrite IH. Qed.

Lemma dict_set_truthy o key x items :
  truthy (VDict o (dict_set key x items)) = true.
Proof.
  destruct items as [|[k v] rest]; simpl; [done|].
  by destruct (String.eqb key k).
Qed.

Lemma replace_record_stored o items pre r post x :
  dict_get "Content" items = Some (VList (pre ++ r :: post)) ->
  replace_record (VDict o items) (length pre) x
  = Ret (VDict o (dict_set "Content"
                    (VList (<[length pre := x]> (pre ++ r :: post))) items)).
Proof.
  intros Hc. unfold replace_record, subscript. rewrite Hc. simpl.
  rewrite bool_decide_true; [done|]. rewrite length_app. simpl. lia.
Qed.

(** *** [clear_content] and [write_content] *)

Lemma clear_content_done w c :
  lock_held w = false -> can_write w = true ->
  file w = Some c -> c <> Blank ->
  clear_content w = (Ret true, set_file (Some (Encoded skeleton)) w).
Proof. intros Hl Hw Hf Hc. open_world w. by destruct c. Qed.


Lemma write_content_falsy data w :
  truthy data = false -> write_content data w = (Ret false, w).
Proof. intros Ht. unfold write_content. by rewrite Ht. Qed.

Lemma stored_not_blank w file_data :
  stored w file_data -> exists c, file w = Some c /\ c <> Blank.
Proof. intros (j & Hf & _). by exists (Encoded j). Qed.

(** On a document, [write_content] adds the record at the end of
    [Content] and rewrites the file. *)
Lemma write_content_appends w o items xs data :
  lock_held w = false -> can_read w = true -> can_write w = true ->
  dir_exists w = true -> truthy data = true ->
  stored w (VDict o items) -> dict_get "Content" items = Some (VList xs) ->
  write_content data w
  = (Ret true,
     set_file (Some (Encoded (encode
        (VDict o (dict_set "Content" (VList (xs ++ [data])) items))))) w).
Proof.
  intros Hl Hr Hw Hd Ht (j & Hf & Hj) Hc. open_world w.
  unfold write_content. rewrite Ht. unfold_ops. simpl.
  rewrite Hj. unfold append_to_content, subscript. rewrite Hc. done.
Qed.

(** On a missing or empty file, [write_content] starts from the
    skeleton. *)
Lemma write_content_creates w data :
  lock_held w = false -> can_read w = true -> can_write w = true ->
  dir_exists w = true \/ makedirs_ok w = true -> truthy data = true ->
  file w = None \/ file w = Some Blank ->
  write_content data w
  = (Ret true,
     set_file (Some (Encoded (JObj [("Content", JArr [encode data])])))
       (set_dir_exists true w)).
Proof.
  intros Hl Hr Hw Hd Ht Hf. open_world w.
  unfold write_content. rewrite Ht. unfold_ops. simpl.
  destruct d; simpl.
  - by destruct Hf as [->| ->].
  - destruct Hd as [? | ->]; [done|]. by destruct Hf as [->| ->].
Qed.

(** *** [remove_by_uid] *)

Lemma remove_loop_found element_value uid pre r x post i :
  Forall (not_matching element_value uid) pre ->
  field uid r x -> py_eq x element_value = true ->
  remove_loop element_value uid (pre ++ r :: post) i
  = Ret (Some (i + length pre)%nat).
Proof.
  unfold field. intros Hpre Hr Hx. revert i.
  induction Hpre as [|e pre (y & He & Hy) _ IH]; intros i; simpl.
  - rewrite Hr; simpl. rewrite Hx. do 2 f_equal. lia.
  - unfold field in He. rewrite He; simpl. rewrite Hy, IH. do 2 f_equal. lia.
Qed.


(** A record the loop went past does not equal the record it stops
    at, when both were read from the file. *)
Lemma not_matching_not_equal element_value uid e r x :
  all_ordered e = true -> all_ordered r = true ->
  not_matching element_value uid e ->
  field uid r x -> py_eq x element_value = true ->
  py_eq e r = false.
Proof.
  intros He Hr (y & Hy & Hne) Hx Heq.
  destruct (py_eq e r) eqn:Her; [|done].
  destruct (py_eq_subscript e r uid y Her Hy) as (x' & Hx' & Hyx).
  unfold field in Hx. rewrite Hx in Hx'. injection Hx' as <-.
  rewrite (py_eq_trans_ordered y x element_value) in Hne; try done.
  - by apply (all_ordered_subscript e uid).
  - by apply (all_ordered_subscript r uid).
Qed.

Lemma list_remove_middle pre r post :
  Forall (fun e => py_eq e r = false) pre ->
  list_remove r (length pre) (pre ++ r :: post) = pre ++ post.
Proof.
  induction 1 as [|e pre He _ IH]; simpl; [done|]. by rewrite He, IH.
Qed.

Lemma lookup_middle {A} (pre : list A) r post :
  (pre ++ r :: post) !! length pre = Some r.
Proof. induction pre; simpl; done. Qed.

Lemma remove_at_middle element_value uid pre r x post :
  all_ordered (VList (pre ++ r :: post)) = true ->
  Forall (not_matching element_value uid) pre ->
  field uid r x -> py_eq x element_value = true ->
  remove_at (VList (pre ++ r :: post)) (length pre) = Ret (VList (pre ++ post)).
Proof.
  intros Hall Hpre Hx Heq. unfold remove_at. rewrite lookup_middle.
  rewrite list_remove_middle; [done|].
  apply all_ordered_list, List.Forall_app in Hall as [Hord Hrest].
  inversion Hrest; subst.
  rewrite List.Forall_forall in *. intros e Hin.
  eapply not_matching_not_equal; eauto.
Qed.

Lemma stored_all_ordered w file_data :
  stored w file_data -> all_ordered file_data = true.
Proof. intros (j & _ & <-). apply all_ordered_decode. Qed.


Lemma remove_by_uid_stored w o items xs element_value uid :
  lock_held w = false -> can_read w = true ->
  stored w (VDict o items) -> dict_get "Content" items = Some (VList xs) ->
  remove_by_uid element_value uid w
  = bind (lift (remove_loop element_value uid xs 0)) (fun hit =>
    bind (lift (match hit with
                | Some i => remove_at (VList xs) i
                | None => Ret (VList xs)
                end)) (fun file_content' =>
    bind clear_content (fun _ =>
    if truthy file_content' then
      bind (lift (first_item file_content')) (fun first =>
      bind (write_content first) (fun _ => ret (bool_decide (is_Some hit))))
    else ret (bool_decide (is_Some hit))))) w.
Proof.
  intros Hl Hr Hs Hc. unfold remove_by_uid.
  by rewrite (bind_ret _ _ _ _ _ (read_content_stored w o items _ Hl Hr Hs Hc)).
Qed.



(** *** Operations that return *)






Lemma append_to_content_never_blocks content data :
  append_to_content content data <> Hang.
Proof.
  unfold append_to_content, subscript, store.
  destruct content as [| | | | | |o items]; try done.
  destruct (dict_get "Content" items) as [[| | | |xs| |]|]; done.
Qed.











Ltac no_document Hread Hempty :=
  rewrite (bind_ret _ _ _ _ _ Hread);
  match type of Hempty with
  | (if is_none ?v then _ else _) = true =>
      destruct (is_none v); [by eexists _, _|];
      rewrite Hempty; by eexists _, _
  end.










(** *** Threads *)

(** A thread that runs alone does what the method does. *)
Lemma run_alone_write_content data w :
  lock_held w = false ->
  run_alone 4 data Start w
  = (Finished (fst (write_content data w)), snd (write_content data w)).
Proof.
  intros Hl. open_world w. unfold write_content. simpl.
  destruct (truthy data); simpl; [|done].
  unfold os_makedirs, with_lock, bind, acquire. simpl.
  assert (Hlocked : forall w0 : world,
    match
      (let (r0, w') :=
         try_except (release_after (write_content_locked data))
           write_content_except w0 in
       Some (Finished r0, w'))
    with
    | Some (p', w') => (p', w')
    | None => (Holding, w0)
    end
    = (Finished
         (fst (try_except (release_after (write_content_locked data))
                 write_content_except w0)),
       snd (try_except (release_after (write_content_locked data))
              write_content_except w0))).
  { intros w0. by destruct (try_except _ _ w0). }
  destruct d; simpl; [apply Hlocked|].
  destruct mk; simpl; [apply Hlocked|done].
Qed.

End StoreFacts.

(** ** Facts about interleaved appends *)

Module ThreadFacts.
Import ValueFacts StoreFacts.

(** *** Replacing one thread's state *)

Section Replace.
Variables (ts : list (value * pc)) (i : nat) (data : value) (p p' : pc).
Hypothesis Hi : ts !! i = Some (data, p).

Lemma replace_split :
  ts = take i ts ++ (data, p) :: drop (S i) ts
  /\ <[i := (data, p')]> ts = take i ts ++ (data, p') :: drop (S i) ts.
Proof.
  split; [by rewrite take_drop_middle|].
  rewrite <- (take_drop_middle ts i (data, p)) at 1 by done.
  assert (Hlen : length (take i ts) = i).
  { rewrite length_take. pose proof (lookup_lt_Some _ _ _ Hi). lia. }
  rewrite <- Hlen at 1. apply insert_middle.
Qed.

Lemma replace_records : map fst (<[i := (data, p')]> ts) = map fst ts.
Proof.
  destruct replace_split as [H1 H2]. rewrite H2. rewrite H1 at 3.
  by rewrite !map_app.
Qed.

Lemma replace_holders :
  (holders (<[i := (data, p')]> ts) + Nat.b2n (is_holding p)
   = holders ts + Nat.b2n (is_holding p'))%nat.
Proof.
  destruct replace_split as [H1 H2]. rewrite H2. rewrite H1 at 3.
  unfold holders. rewrite !List.filter_app, !length_app. simpl.
  destruct (is_holding p), (is_holding p'); simpl; lia.
Qed.

Lemma replace_measure :
  (measure (<[i := (data, p')]> ts) + remaining p
   = measure ts + remaining p')%nat.
Proof.
  destruct replace_split as [H1 H2]. rewrite H2. rewrite H1 at 3.
  unfold measure. rewrite !map_app, !list_sum_app. simpl. lia.
Qed.

Lemma replace_unfinished :
  is_finished p = false -> is_finished p' = false ->
  finished_data (<[i := (data, p')]> ts) = finished_data ts.
Proof.
  intros Hp Hp'. destruct replace_split as [H1 H2]. rewrite H2. rewrite H1 at 3.
  unfold finished_data. rewrite !List.filter_app. simpl. by rewrite Hp, Hp'.
Qed.

Lemma replace_finishing :
  is_finished p = false -> is_finished p' = true ->
  Permutation (finished_data ts ++ [data])
    (finished_data (<[i := (data, p')]> ts)).
Proof.
  intros Hp Hp'. destruct replace_split as [H1 H2]. rewrite H2. rewrite H1 at 1.
  unfold finished_data. rewrite !List.filter_app. simpl. rewrite Hp, Hp'.
  rewrite !map_app. simpl.
  rewrite <- app_assoc. apply Permutation_app_head.
  symmetry. apply Permutation_cons_append.
Qed.

Lemma replace_on_track :
  Forall on_track ts -> on_track (data, p') ->
  Forall on_track (<[i := (data, p')]> ts).
Proof. intros Hts Hp'. by apply Forall_insert. Qed.

End Replace.

(** *** The statements under the lock *)

Lemma encode_reread records :
  Forall (fun r => well_keyed r = true) records ->
  map encode (map (decode true) (map encode records)) = map encode records.
Proof.
  induction 1 as [|r records Hr _ IH]; simpl; [done|].
  by rewrite IH, encode_decode_encode.
Qed.

Lemma locked_append w appended data :
  can_read w = true -> can_write w = true ->
  Forall (fun r => well_keyed r = true) appended ->
  file w = file_of appended ->
  try_except (release_after (write_content_locked data)) write_content_except w
  = (Ret true, set_lock false (set_file (file_of (appended ++ [data])) w)).
Proof.
  intros Hr Hw Hkeyed Hf.
  destruct appended as [|a rest]; open_world w; [done|].
  unfold try_except, release_after, write_content_locked.
  unfold_ops. simpl.
  inversion Hkeyed as [|? ? Ha Hrest]; subst.
  rewrite map_app, (encode_reread rest Hrest), (encode_decode_encode true a Ha).
  unfold document_of. simpl. by rewrite map_app.
Qed.

(** *** One step keeps the invariant and uses up the measure *)

Lemma holder_counted ts i data :
  ts !! i = Some (data, Holding) -> (1 <= holders ts)%nat.
Proof.
  intros Hi. pose proof (replace_holders ts i data Holding Start Hi) as H.
  simpl in H. lia.
Qed.

Lemma counted_holder ts :
  (1 <= holders ts)%nat -> exists i data, ts !! i = Some (data, Holding).
Proof.
  induction ts as [|[data p] ts IH]; unfold holders; simpl; [lia|].
  destruct p; simpl; intros H;
    try (destruct (IH H) as (i & d & Hi); by exists (S i), d).
  by exists 0%nat, data.
Qed.

Lemma finished_data_records ts :
  forall data, In data (finished_data ts) -> In data (map fst ts).
Proof.
  intros data. unfold finished_data. rewrite !in_map_iff.
  intros (t & Ht & Hin). apply List.filter_In in Hin as [Hin _]. by exists t.
Qed.

Lemma lookup_record (ts : list (value * pc)) i data p :
  ts !! i = Some (data, p) -> In data (map fst ts).
Proof.
  intros Hi. apply in_map_iff. exists (data, p). split; [done|].
  apply list_elem_of_In. by apply (list_elem_of_lookup_2 _ i).
Qed.

Lemma invariant_step records s i s' :
  Forall appendable records -> invariant records s ->
  step_thread i s = Some s' ->
  invariant records s' /\ (measure (threads s') < measure (threads s))%nat.
Proof.
  intros Hrecords [Hrec Hdir Hread Hwrite Hlock Htrack (appended & Hfile & Hperm)].
  destruct s as [w ts]. simpl in *. unfold step_thread. simpl.
  destruct (ts !! i) as [[data p]|] eqn:Hi; [|done].
  assert (Hdata : appendable data).
  { rewrite List.Forall_forall in Hrecords. apply Hrecords.
    rewrite <- Hrec. by apply (lookup_record ts i data p). }
  assert (Hp : on_track (data, p)).
  { rewrite List.Forall_forall in Htrack. apply Htrack.
    apply list_elem_of_In. by apply (list_elem_of_lookup_2 _ i). }
  pose proof (replace_records ts i data p) as Hrecs.
  pose proof (replace_holders ts i data p) as Hholders.
  pose proof (replace_measure ts i data p) as Hmeasure.
  destruct p as [|present| | |r]; simpl.
  - destruct Hdata as [-> _]. simpl. intros [= <-]. simpl.
    specialize (Hholders (Checked (dir_exists w)) Hi).
    specialize (Hmeasure (Checked (dir_exists w)) Hi). simpl in *.
    split; [|lia]. split; simpl; try done.
    + by rewrite Hrecs.
    + rewrite <- Hlock. lia.
    + by apply replace_on_track.
    + exists appended. split; [done|]. by rewrite (replace_unfinished _ _ _ Start).
  - unfold on_track in Hp. simpl in Hp. subst present. simpl.
    intros [= <-]. simpl.
    specialize (Hholders Waiting Hi). specialize (Hmeasure Waiting Hi).
    simpl in *.
    split; [|lia]. split; simpl; try done.
    + by rewrite Hrecs.
    + rewrite <- Hlock. lia.
    + by apply replace_on_track.
    + exists appended. split; [done|].
      by rewrite (replace_unfinished _ _ _ (Checked true)).
  - unfold acquire. destruct (lock_held w) eqn:Hheld; [done|].
    intros [= <-]. simpl.
    specialize (Hholders Holding Hi). specialize (Hmeasure Holding Hi).
    simpl in *.
    split; [|lia]. split; simpl; try done; try by open_world w.
    + by rewrite Hrecs.
    + replace (lock_held (set_lock true w)) with true by by open_world w. lia.
    + by apply replace_on_track.
    + exists appended. split; [by open_world w|].
      by rewrite (replace_unfinished _ _ _ Waiting).
  - assert (Hkeyed : Forall (fun r => well_keyed r = true) appended).
    { rewrite List.Forall_forall in *. intros r Hin.
      apply Hrecords. rewrite <- Hrec. apply finished_data_records.
      by apply (Permutation_in _ Hperm). }
    rewrite (locked_append w appended data Hread Hwrite Hkeyed Hfile).
    intros [= <-]. simpl.
    specialize (Hholders (Finished (Ret true)) Hi).
    specialize (Hmeasure (Finished (Ret true)) Hi).
    pose proof (holder_counted ts i data Hi) as Hone.
    simpl in *.
    split; [|lia]. split; simpl; try done; try by open_world w.
    + by rewrite Hrecs.
    + replace (lock_held (set_lock false
                  (set_file (file_of (appended ++ [data])) w))) with false
        by by open_world w.
      destruct (lock_held w); lia.
    + by apply replace_on_track.
    + exists (appended ++ [data]). split; [by open_world w|].
      etransitivity; [by apply Permutation_app_tail|].
      by apply (replace_finishing _ _ _ Holding).
  - done.
Qed.

(** *** Every interleaving can go on until all threads have finished *)

Lemma unfinished_thread ts :
  forallb (fun t : value * pc => is_finished (snd t)) ts = false ->
  exists i data p, ts !! i = Some (data, p) /\ is_finished p = false.
Proof.
  induction ts as [|[data p] ts IH]; simpl; [done|].
  destruct (is_finished p) eqn:Hp; simpl.
  - intros H. destruct (IH H) as (i & d & q & Hi & Hq). by exists (S i), d, q.
  - intros _. by exists 0%nat, data, p.
Qed.

Lemma invariant_progress records s :
  invariant records s -> all_finished s = false ->
  exists i s', step_thread i s = Some s'.
Proof.
  intros [Hrec Hdir Hread Hwrite Hlock Htrack _] Hall.
  destruct s as [w ts]. unfold all_finished in Hall. simpl in *.
  destruct (unfinished_thread ts Hall) as (i & data & p & Hi & Hp).
  assert (Hholding : forall j d, ts !! j = Some (d, Holding) ->
            exists s', step_thread j (System w ts) = Some s').
  { intros j d Hj. unfold step_thread. simpl. rewrite Hj. simpl.
    destruct (try_except _ _ w). by eexists. }
  destruct p as [|present| | |r]; try done.
  - exists i. unfold step_thread. simpl. rewrite Hi. simpl.
    destruct (truthy data); simpl; by eexists.
  - exists i. unfold step_thread. simpl. rewrite Hi.
    rewrite List.Forall_forall in Htrack.
    assert (Hpresent : on_track (data, Checked present)).
    { apply Htrack, list_elem_of_In. by apply (list_elem_of_lookup_2 _ i). }
    unfold on_track in Hpresent. simpl in Hpresent. subst present. simpl.
    by eexists.
  - destruct (lock_held w) eqn:Hheld.
    + destruct (counted_holder ts) as (j & d & Hj); [lia|].
      exists j. by apply (Hholding j d).
    + exists i. unfold step_thread. simpl. rewrite Hi. simpl.
      unfold acquire. rewrite Hheld. by eexists.
  - exists i. by apply (Hholding i data).
Qed.

Lemma invariant_terminates records (n : nat) :
  Forall appendable records ->
  forall s,
    (measure (threads s) <= n)%nat -> invariant records s ->
    exists schedule final,
      run_schedule schedule s = Some final /\ all_finished final = true.
Proof.
  intros Hrecords. induction n as [|n IH]; intros s Hn Hinv.
  - destruct (all_finished s) eqn:Hall; [by exists [], s|].
    destruct (invariant_progress records s Hinv Hall) as (i & s' & Hstep).
    destruct (invariant_step records s i s' Hrecords Hinv Hstep) as [_ Hlt]. lia.
  - destruct (all_finished s) eqn:Hall; [by exists [], s|].
    destruct (invariant_progress records s Hinv Hall) as (i & s' & Hstep).
    destruct (invariant_step records s i s' Hrecords Hinv Hstep) as [Hinv' Hlt].
    destruct (IH s') as (schedule & final & Hrun & Hfin); [lia|done|].
    exists (i :: schedule), final. simpl. by rewrite Hstep.
Qed.

Lemma invariant_run records schedule :
  Forall appendable records ->
  forall s final,
    invariant records s -> run_schedule schedule s = Some final ->
    invariant records final.
Proof.
  intros Hrecords. induction schedule as [|i schedule IH]; intros s final Hinv; simpl.
  - by intros [= <-].
  - destruct (step_thread i s) as [s'|] eqn:Hstep; [|done].
    apply IH. by apply (invariant_step records s i s').
Qed.

Lemma invariant_spawn w records :
  file w = None -> lock_held w = false -> dir_exists w = true ->
  can_read w = true -> can_write w = true ->
  invariant records (spawn w records).
Proof.
  intros Hf Hl Hd Hr Hw. unfold spawn. split; simpl; try done.
  - rewrite map_map. simpl. apply map_id.
  - rewrite Hl. unfold holders. induction records; simpl; [done|]. done.
  - apply List.Forall_forall. intros t (d & <- & _)%in_map_iff. done.
  - exists []. split; [done|]. unfold finished_data.
    induction records; simpl; done.
Qed.

Lemma all_finished_data ts :
  forallb (fun t : value * pc => is_finished (snd t)) ts = true ->
  finished_data ts = map fst ts.
Proof.
  unfold finished_data. induction ts as [|[d p] ts IH]; simpl; [done|].
  intros [Hp Hrest]%andb_true_iff. rewrite Hp. simpl. by rewrite IH.
Qed.

(** X19. Threads appending truthy records to a fresh file whose
    directory is in place: every interleaving, however far it has run, can
    be continued until all calls have ended (no thread is left blocked),
    and in every interleaving in which all calls have ended each has
    returned [True] and the file lists exactly the records given, each
    once, in some order. *)
Theorem appends_keep_every_record (w : world) (records : list value) :
  file w = None -> lock_held w = false -> dir_exists w = true ->
  can_read w = true -> can_write w = true ->
  Forall appendable records ->
  (forall schedule s,
     run_schedule schedule (spawn w records) = Some s ->
     exists rest final,
       run_schedule rest s = Some final /\ all_finished final = true)
  /\ forall schedule final,
       run_schedule schedule (spawn w records) = Some final ->
       all_finished final = true ->
       Forall (fun t => snd t = Finished (Ret true)) (threads final)
       /\ exists appended,
            Permutation appended records
            /\ file (shared final) = file_of appended.
Proof.
  intros Hf Hl Hd Hr Hw Hrecords.
  pose proof (invariant_spawn w records Hf Hl Hd Hr Hw) as Hinit.
  split.
  - intros schedule s Hrun.
    apply (invariant_terminates records (measure (threads s)) Hrecords s);
      [done|].
    by apply (invariant_run records schedule Hrecords _ _ Hinit Hrun).
  - intros schedule final Hrun Hfin.
    destruct (invariant_run records schedule Hrecords _ _ Hinit Hrun)
      as [Hrec _ _ _ _ Htrack (appended & Hfile & Hperm)].
    unfold all_finished in Hfin. split.
    + rewrite forallb_forall in Hfin. rewrite List.Forall_forall in *.
      intros [d p] Hin. specialize (Hfin _ Hin). specialize (Htrack _ Hin).
      unfold on_track in Htrack. simpl in *. destruct p; try done. by subst.
    + exists appended. split; [|done].
      by rewrite (all_finished_data _ Hfin), Hrec in Hperm.
Qed.

End ThreadFacts.

(** ** Further facts *)

Module MoreFacts.
Import ValueFacts StoreFacts ThreadFacts.

(** *** Values read from a file *)

Lemma keys_dict_set {A} k (v : A) items :
  keys (dict_set k v items)
  = if existsb (String.eqb k) (keys items) then keys items
    else keys items ++ [k].
Proof.
  induction items as [|[k' v'] rest IH]; simpl; [done|].
  destruct (String.eqb_spec k k') as [->|Hne]; simpl; [done|].
  rewrite IH. by destruct (existsb (String.eqb k) (keys rest)).
Qed.

Lemma distinct_snoc ks k :
  distinct ks = true -> existsb (String.eqb k) ks = false ->
  distinct (ks ++ [k]) = true.
Proof.
  induction ks as [|a ks IH]; simpl; [done|].
  intros [Ha Hd]%andb_true_iff [Hka Hk]%orb_false_elim.
  apply andb_true_iff. split; [|by apply IH].
  apply negb_true_iff. apply negb_true_iff in Ha.
  rewrite existsb_app, Ha. simpl. by rewrite String.eqb_sym, Hka.
Qed.

Lemma distinct_dict_set {A} k (v : A) items :
  distinct (keys items) = true -> distinct (keys (dict_set k v items)) = true.
Proof.
  intros Hd. rewrite keys_dict_set.
  destruct (existsb (String.eqb k) (keys items)) eqn:Hk; [done|].
  by apply distinct_snoc.
Qed.

Lemma distinct_dict_of_pairs {A} (pairs : list (string * A)) :
  distinct (keys (dict_of_pairs pairs)) = true.
Proof.
  unfold dict_of_pairs.
  enough (H : forall acc : list (string * A),
              distinct (keys acc) = true ->
              distinct (keys (fold_left
                (fun d kv => dict_set (fst kv) (snd kv) d) pairs acc)) = true)
    by by apply H.
  induction pairs as [|kv rest IH]; intros acc Hacc; simpl; [done|].
  apply IH. by apply distinct_dict_set.
Qed.

(** [json.load] builds dictionaries with distinct keys. *)
Lemma well_keyed_decode hook j : well_keyed (decode hook j) = true.
Proof.
  induction j as [| | | |xs IH|members IH] using json_ind; try done.
  - apply well_keyed_list. rewrite List.Forall_map.
    eapply List.Forall_impl; [|exact IH]. done.
  - cbn [decode]. apply well_keyed_dict. split.
    + apply distinct_dict_of_pairs.
    + apply (dict_of_pairs_values (fun v => well_keyed v = true)).
      rewrite List.Forall_map. eapply List.Forall_impl; [|exact IH]. done.
Qed.

Lemma map_values_id {A} (f : A -> A) items :
  Forall (fun kv => f (snd kv) = snd kv) items -> map_values f items = items.
Proof.
  unfold map_values.
  induction 1 as [|[k v] rest Hv _ IH]; simpl; [done|].
  simpl in Hv. by rewrite Hv, IH.
Qed.

(** A value read from a file is read back unchanged from its dump. *)
Lemma reread_fixed v : file_shaped v -> reread v = v.
Proof.
  unfold reread, file_shaped.
  induction v as [|b|n|s|xs IH|xs IH|o items IH] using value_ind;
    intros (Hk & Ho & Hf); try done.
  - apply well_keyed_list in Hk. apply all_ordered_list in Ho.
    apply tuple_free_list in Hf.
    cbn [encode decode]. f_equal. rewrite map_map.
    induction IH as [|x xs IHx _ IHxs]; simpl; [done|].
    inversion Hk; subst. inversion Ho; subst. inversion Hf; subst.
    f_equal; auto.
  - apply well_keyed_dict in Hk as [Hd Hk].
    apply all_ordered_dict in Ho as [-> Ho]. apply tuple_free_dict in Hf.
    rewrite decode_encode_dict by done. f_equal.
    apply map_values_id. rewrite List.Forall_forall in *.
    intros kv Hin. apply IH; [done|]. auto.
Qed.

Lemma file_shaped_decode j : file_shaped (decode true j).
Proof.
  split; [apply well_keyed_decode|].
  split; [apply all_ordered_decode|apply tuple_free_decode].
Qed.

Lemma stored_file_shaped w file_data : stored w file_data -> file_shaped file_data.
Proof. intros (j & _ & <-). apply file_shaped_decode. Qed.

Lemma file_shaped_items o items kv :
  file_shaped (VDict o items) -> In kv items -> file_shaped (snd kv).
Proof.
  intros (Hk & Ho & Hf) Hin.
  apply well_keyed_dict in Hk as [_ Hk].
  apply all_ordered_dict in Ho as [_ Ho]. apply tuple_free_dict in Hf.
  rewrite List.Forall_forall in *. repeat split; auto.
Qed.

Lemma file_shaped_elements xs x :
  file_shaped (VList xs) -> In x xs -> file_shaped x.
Proof.
  intros (Hk & Ho & Hf) Hin.
  apply well_keyed_list in Hk. apply all_ordered_list in Ho.
  apply tuple_free_list in Hf.
  rewrite List.Forall_forall in *. repeat split; auto.
Qed.

Lemma file_shaped_subscript v key x :
  file_shaped v -> subscript v key = Ret x -> file_shaped x.
Proof.
  destruct v as [| | | | | |o items]; try done. simpl subscript.
  intros Hv.
  destruct (dict_get key items) as [y|] eqn:Hget; [|done].
  intros [= ->]. apply dict_get_In in Hget.
  apply (file_shaped_items o items (key, x) Hv Hget).
Qed.

Lemma map_values_dict_set {A B} (f : A -> B) k v items :
  map_values f (dict_set k v items) = dict_set k (f v) (map_values f items).
Proof.
  unfold map_values.
  induction items as [|[k' v'] rest IH]; simpl; [done|].
  destruct (String.eqb k k'); simpl; [done|]. by rewrite IH.
Qed.

Lemma reread_list xs : reread (VList xs) = VList (map reread xs).
Proof. unfold reread. cbn [encode decode]. by rewrite map_map. Qed.

(** The dump of a stored document after an assignment to one of its
    keys is read back as the document with the value read back. *)
Lemma reread_dict_set o items key x :
  file_shaped (VDict o items) ->
  reread (VDict o (dict_set key x items))
  = VDict true (dict_set key (reread x) items).
Proof.
  intros Hv. pose proof Hv as (Hk & Ho & _).
  apply well_keyed_dict in Hk as [Hd _].
  apply all_ordered_dict in Ho as [-> _]. unfold reread.
  rewrite decode_encode_dict by by apply distinct_dict_set.
  f_equal. rewrite map_values_dict_set. f_equal.
  apply map_values_id. rewrite List.Forall_forall. intros kv Hin.
  apply reread_fixed. by apply (file_shaped_items true items).
Qed.

Lemma reread_records xs : file_shaped (VList xs) -> map reread xs = xs.
Proof.
  intros Hv. pose proof (reread_fixed (VList xs) Hv) as H.
  rewrite reread_list in H. by injection H.
Qed.

(** *** Appending, then reading *)

Lemma stored_content_sound w o items xs :
  stored w (VDict o items) -> dict_get "Content" items = Some (VList xs) ->
  file_shaped (VDict o items) /\ file_shaped (VList xs).
Proof.
  intros Hs Hc. pose proof (stored_file_shaped _ _ Hs) as Hv.
  split; [done|].
  apply (file_shaped_subscript _ "Content" _ Hv). unfold subscript.
  by rewrite Hc.
Qed.

Lemma append_reads_back w o items xs record :
  lock_held w = false -> can_read w = true -> can_write w = true ->
  dir_exists w = true -> truthy record = true ->
  stored w (VDict o items) -> dict_get "Content" items = Some (VList xs) ->
  exists w1,
    write_content record w = (Ret true, w1)
    /\ lock_held w1 = false /\ can_read w1 = true
    /\ stored w1 (VDict true (dict_set "Content"
                                (VList (xs ++ [reread record])) items)).
Proof.
  intros Hl Hr Hw Hd Ht Hs Hc.
  destruct (stored_content_sound w o items xs Hs Hc) as (Hv & Hxs).
  eexists. split; [by apply (write_content_appends w o items xs)|].
  split; [by open_world w|]. split; [by open_world w|].
  exists (encode (VDict o (dict_set "Content" (VList (xs ++ [record])) items))).
  split; [by open_world w|].
  fold (reread (VDict o (dict_set "Content" (VList (xs ++ [record])) items))).
  rewrite reread_dict_set by done. rewrite reread_list, map_app.
  by rewrite (reread_records xs Hxs).
Qed.

Lemma creation_reads_back w record :
  lock_held w = false -> can_read w = true -> can_write w = true ->
  directory_available w -> truthy record = true ->
  file w = None \/ file w = Some Blank ->
  exists w1,
    write_content record w = (Ret true, w1)
    /\ lock_held w1 = false /\ can_read w1 = true /\ dir_exists w1 = true
    /\ file w1 = Some (document_of [record])
    /\ stored w1 (VDict true [("Content", VList [reread record])]).
Proof.
  intros Hl Hr Hw Hd Ht Hf.
  eexists. split; [by apply write_content_creates|].
  repeat split; try by open_world w.
  eexists. split; [by open_world w|]. done.
Qed.

Lemma is_in_stored w o items xs record :
  lock_held w = false -> can_read w = true ->
  stored w (VDict o items) -> dict_get "Content" items = Some (VList xs) ->
  is_in record w = (Ret (is_in_loop record xs), w).
Proof.
  intros Hl Hr Hs Hc. unfold is_in.
  rewrite (bind_ret _ _ _ _ _ (read_stored w _ Hl Hr Hs)).
  cbn [is_none]. rewrite (py_eq_empty_dict _ _ _ _ Hc).
  unfold lift, bind, subscript. by rewrite Hc.
Qed.

Lemma is_in_loop_last record xs y :
  py_eq record y = true -> is_in_loop record (xs ++ [y]) = true.
Proof.
  intros Hy. induction xs as [|x xs IH]; simpl; [by rewrite Hy|].
  by destruct (py_eq record x).
Qed.

(** *** Appends that fail *)

Lemma append_to_content_raises content record e :
  append_to_content content record = Raise e ->
  is_io_error e = false /\ is_value_error e = false.
Proof.
  unfold append_to_content, subscript, store.
  destruct content as [| | | | | |o items]; try by intros [= <-].
  destruct (dict_get "Content" items) as [[| | | |xs| |]|]; simpl;
    by intros [= <-].
Qed.

Lemma write_content_unreadable w record c :
  lock_held w = false -> dir_exists w = true ->
  file w = Some c -> c <> Blank ->
  truthy record = true -> can_read w = false ->
  write_content record w = (Ret false, logged OSError "I/O fail (%s): %s" w).
Proof.
  intros Hl Hd Hf Hc Ht Hr. open_world w.
  unfold write_content. rewrite Ht. by destruct c.
Qed.

Lemma write_content_malformed w record :
  lock_held w = false -> dir_exists w = true ->
  file w = Some Malformed ->
  truthy record = true -> can_read w = true ->
  write_content record w = (Ret false, logged ValueError "Data conversion fail" w).
Proof.
  intros Hl Hd Hf Ht Hr. open_world w.
  unfold write_content. by rewrite Ht.
Qed.

Lemma write_content_append_raises w record j e :
  lock_held w = false -> dir_exists w = true ->
  file w = Some (Encoded j) ->
  truthy record = true -> can_read w = true ->
  append_to_content (decode true j) record = Raise e ->
  write_content record w
  = (Ret false, logged e "Fail to write content of JSON file %s" w).
Proof.
  intros Hl Hd Hf Ht Hr Ha.
  destruct (append_to_content_raises _ _ _ Ha) as [Hio Hval].
  open_world w. unfold write_content. rewrite Ht. unfold_ops. simpl.
  rewrite Ha. simpl. by rewrite Hio, Hval.
Qed.

Lemma write_content_unwritable w record j content' :
  lock_held w = false -> dir_exists w = true ->
  file w = Some (Encoded j) ->
  truthy record = true -> can_read w = true ->
  append_to_content (decode true j) record = Ret content' ->
  can_write w = false ->
  write_content record w = (Ret false, logged OSError "I/O fail (%s): %s" w).
Proof.
  intros Hl Hd Hf Ht Hr Ha Hw. open_world w.
  unfold write_content. rewrite Ht. unfold_ops. simpl. by rewrite Ha.
Qed.

Lemma append_without_content o items record :
  dict_get "Content" items = None ->
  append_to_content (VDict o items) record = Raise KeyError.
Proof. intros Hc. unfold append_to_content, subscript. by rewrite Hc. Qed.

Lemma append_to_non_list o items c record :
  dict_get "Content" items = Some c ->
  (forall xs, c <> VList xs) ->
  append_to_content (VDict o items) record = Raise AttributeError.
Proof.
  intros Hc Hlist. unfold append_to_content, subscript. rewrite Hc. simpl.
  destruct c; try done. by destruct (Hlist xs).
Qed.

Lemma write_content_raising_append w record file_data e :
  lock_held w = false -> can_read w = true -> dir_exists w = true ->
  truthy record = true -> stored w file_data ->
  append_to_content file_data record = Raise e ->
  is_io_error e = false -> is_value_error e = false ->
  write_content record w
  = (Ret false, logged e "Fail to write content of JSON file %s" w).
Proof.
  intros Hl Hr Hd Ht (j & Hf & Hj) Ha Hio Hval. open_world w.
  unfold write_content. rewrite Ht. unfold_ops. simpl.
  rewrite Ha. simpl. by rewrite Hio, Hval.
Qed.

(** *** [is_in] and [is_in_position] *)

Lemma is_in_loop_found record xs i :
  is_in_loop record xs = fst (is_in_position_loop record xs i).
Proof.
  revert i. induction xs as [|x xs IH]; intros i; simpl; [done|].
  destruct (py_eq record x); [done|]. apply IH.
Qed.

(** *** [update] and [update_twice] *)

Lemma update_twice_loop_same record uid xs i :
  update_twice_loop record uid uid xs i = update_loop record uid xs i.
Proof.
  revert i. induction xs as [|msg xs IH]; intros i; simpl; [done|].
  destruct (subscript record uid) as [a| |]; simpl; try done.
  destruct (subscript msg uid) as [b| |]; simpl; try done.
  destruct (py_eq a b); simpl; [done|]. apply IH.
Qed.

(** *** Operations that only log *)

Lemma relog_relog lg lg' w : relog lg' (relog lg w) = relog lg' w.
Proof. done. Qed.

Lemma relog_same w : relog (log w) w = w.
Proof. by destruct w. Qed.

Lemma only_logs_ret {A} (a : A) : only_logs (ret a).
Proof. intros w. exists (log w). simpl. by rewrite relog_same. Qed.

Lemma only_logs_lift {A} (r : result A) : only_logs (lift r).
Proof. intros w. exists (log w). simpl. by rewrite relog_same. Qed.

Lemma only_logs_bind {A B} (m : M A) (k : A -> M B) :
  only_logs m -> (forall a, only_logs (k a)) -> only_logs (bind m k).
Proof.
  intros Hm Hk w. unfold bind. destruct (Hm w) as [lg Hw].
  destruct (m w) as [[a|e|] w1]; simpl in *; subst w1; [|by exists lg..].
  destruct (Hk a (relog lg w)) as [lg' Hw']. exists lg'.
  by rewrite Hw', relog_relog.
Qed.

Lemma only_logs_read : only_logs read.
Proof.
  intros w. open_world w. unfold read. unfold_ops. simpl.
  destruct l; simpl; [by eexists|].
  destruct f as [[| |j]|]; simpl; try by eexists.
  all: destruct r; simpl; by eexists.
Qed.

Ltac only_logging :=
  repeat first
    [ apply only_logs_ret
    | apply only_logs_lift
    | apply only_logs_read
    | apply only_logs_bind; [|intros ?]
    | match goal with
      | |- only_logs (if ?b then _ else _) => destruct b
      end ].

(** *** The lock *)

Lemma rbind_settles {A B} (r : result A) (k : A -> result B) :
  r <> Hang -> (forall a, k a <> Hang) -> rbind r k <> Hang.
Proof. intros Hr Hk. destruct r; simpl; [apply Hk|done|done]. Qed.

Lemma subscript_settles v key : subscript v key <> Hang.
Proof.
  destruct v as [| | | | | |o items]; try done. simpl.
  by destruct (dict_get key items).
Qed.

Lemma py_iter_settles v : py_iter v <> Hang.
Proof. by destruct v. Qed.

Lemma json_load_settles hook c : json_load hook c <> Hang.
Proof. by destruct c. Qed.

Lemma search_loop_settles element_value uid xs :
  search_loop element_value uid xs <> Hang.
Proof.
  induction xs as [|x xs IH]; simpl; [done|].
  destruct (truthy x); simpl; [|done].
  apply rbind_settles; [apply subscript_settles|].
  intros y. by destruct (py_eq y element_value).
Qed.

Lemma remove_loop_settles element_value uid xs i :
  remove_loop element_value uid xs i <> Hang.
Proof.
  revert i. induction xs as [|x xs IH]; intros i; simpl; [done|].
  apply rbind_settles; [apply subscript_settles|].
  intros y. destruct (py_eq y element_value); [done|apply IH].
Qed.

Lemma update_loop_settles record uid xs i :
  update_loop record uid xs i <> Hang.
Proof.
  revert i. induction xs as [|x xs IH]; intros i; simpl; [done|].
  apply rbind_settles; [apply subscript_settles|]. intros a.
  apply rbind_settles; [apply subscript_settles|]. intros b.
  destruct (py_eq a b); [done|apply IH].
Qed.

Lemma update_twice_loop_settles record uid1 uid2 xs i :
  update_twice_loop record uid1 uid2 xs i <> Hang.
Proof.
  revert i. induction xs as [|x xs IH]; intros i; simpl; [done|].
  apply rbind_settles; [apply subscript_settles|]. intros a1.
  apply rbind_settles; [apply subscript_settles|]. intros b1.
  apply rbind_settles.
  - destruct (py_eq a1 b1); [|done].
    apply rbind_settles; [apply subscript_settles|]. intros a2.
    apply rbind_settles; [apply subscript_settles|]. done.
  - intros both. destruct both; [done|apply IH].
Qed.

Lemma replace_record_settles file_data i x :
  replace_record file_data i x <> Hang.
Proof.
  unfold replace_record.
  apply rbind_settles; [apply subscript_settles|]. intros c.
  apply rbind_settles.
  - destruct c as [| | | |xs| |]; try done. simpl. by case_bool_decide.
  - intros c'. by destruct file_data.
Qed.

Lemma remove_at_settles file_content i : remove_at file_content i <> Hang.
Proof.
  destruct file_content as [| | | |xs| |]; try done. simpl.
  by destruct (xs !! i).
Qed.

Lemma first_item_settles file_content : first_item file_content <> Hang.
Proof.
  destruct file_content as [| | |s|xs|xs|]; try done; simpl.
  - by destruct (chars s).
  - by destruct xs.
  - by destruct xs.
Qed.

Lemma neutral_ret {A} (a : A) : lock_neutral (ret a).
Proof. done. Qed.

Lemma neutral_lift {A} (r : result A) : r <> Hang -> lock_neutral (lift r).
Proof. done. Qed.

Lemma neutral_bind {A B} (m : M A) (k : A -> M B) :
  lock_neutral m -> (forall a, lock_neutral (k a)) -> lock_neutral (bind m k).
Proof.
  intros Hm Hk w. unfold bind. destruct (Hm w) as [Hr Hl].
  destruct (m w) as [[a|e|] w1]; simpl in *; [|done..].
  destruct (Hk a w1) as [Hr' Hl']. split; [done|congruence].
Qed.

Lemma neutral_os_path_exists : lock_neutral os_path_exists.
Proof. done. Qed.

Lemma neutral_os_path_exists_dir : lock_neutral os_path_exists_dir.
Proof. done. Qed.

Lemma neutral_os_stat_size : lock_neutral os_stat_size.
Proof. intros w. unfold os_stat_size. by destruct (file w) as [[| |]|]. Qed.

Lemma neutral_os_makedirs : lock_neutral os_makedirs.
Proof.
  intros w. unfold os_makedirs.
  destruct (dir_exists w); [done|]. by destruct (makedirs_ok w).
Qed.

Lemma neutral_open_read : lock_neutral open_read.
Proof.
  intros w. unfold open_read.
  destruct (file w); [|done]. by destruct (can_read w).
Qed.

Lemma neutral_open_write c : lock_neutral (open_write c).
Proof. intros w. unfold open_write. by destruct (can_write w). Qed.

Lemma neutral_os_remove : lock_neutral os_remove.
Proof.
  intros w. unfold os_remove.
  destruct (file w); [|done]. by destruct (can_remove w).
Qed.

Lemma neutral_logger_error e : lock_neutral (logger_error e).
Proof. done. Qed.

Lemma neutral_safe {A} (m : M A) : lock_neutral m -> lock_safe m.
Proof. intros Hm w Hl. destruct (Hm w) as [? ?]. split; [done|congruence]. Qed.

Lemma safe_bind {A B} (m : M A) (k : A -> M B) :
  lock_safe m -> (forall a, lock_safe (k a)) -> lock_safe (bind m k).
Proof.
  intros Hm Hk w Hl. unfold bind. destruct (Hm w Hl) as [Hr Hl1].
  destruct (m w) as [[a|e|] w1]; simpl in *; [|done..].
  by apply Hk.
Qed.

(** [with self.lock] around statements that leave the lock alone does
    not block when the lock is free, and gives the lock back. *)
Lemma safe_with_lock {A} (body : M A) :
  lock_neutral body -> lock_safe (with_lock body).
Proof.
  intros Hb w Hl. unfold with_lock, bind, acquire, release_after.
  rewrite Hl. destruct (Hb (set_lock true w)) as [Hr _].
  destruct (body (set_lock true w)) as [r w1]. simpl in *.
  split; [by destruct r|by destruct r, w1].
Qed.

Lemma safe_try_except {A} (body : M A) (handler : exn -> M A) :
  lock_safe body -> (forall e, lock_safe (handler e)) ->
  lock_safe (try_except body handler).
Proof.
  intros Hb Hh w Hl. unfold try_except. destruct (Hb w Hl) as [Hr Hl1].
  destruct (body w) as [[a|e|] w1]; simpl in *; [done| |done].
  by apply Hh.
Qed.

Ltac lock_neutrality :=
  repeat first
    [ apply neutral_ret
    | apply neutral_os_path_exists
    | apply neutral_os_path_exists_dir
    | apply neutral_os_stat_size
    | apply neutral_os_makedirs
    | apply neutral_open_read
    | apply neutral_open_write
    | apply neutral_os_remove
    | apply neutral_logger_error
    | apply neutral_lift;
      first [ apply json_load_settles | apply subscript_settles
            | apply py_iter_settles | apply append_to_content_never_blocks
            | apply search_loop_settles | apply remove_loop_settles
            | apply update_loop_settles | apply update_twice_loop_settles
            | apply replace_record_settles | apply remove_at_settles
            | apply first_item_settles | done ]
    | apply neutral_bind; [|intros ?]
    | match goal with
      | |- lock_neutral (if ?b then _ else _) => destruct b
      | |- lock_neutral (lift (match ?h with _ => _ end)) => destruct h
      end ].

Lemma safe_read : lock_safe read.
Proof.
  apply safe_try_except.
  - apply safe_with_lock. lock_neutrality.
  - intros e. apply neutral_safe. unfold log_failure. lock_neutrality.
Qed.

Lemma safe_write written : lock_safe (write written).
Proof.
  unfold write. destruct (truthy written); simpl;
    [|apply neutral_safe; lock_neutrality].
  apply safe_bind; [apply neutral_safe; lock_neutrality|]. intros present.
  apply safe_bind; [apply neutral_safe; lock_neutrality|]. intros _.
  apply safe_try_except.
  - apply safe_with_lock. lock_neutrality.
  - intros e. apply neutral_safe. unfold log_failure. lock_neutrality.
Qed.

Lemma safe_delete : lock_safe delete.
Proof.
  apply safe_try_except.
  - apply safe_with_lock. lock_neutrality.
  - intros e. apply neutral_safe. unfold log_failure. lock_neutrality.
Qed.

Lemma safe_clear_content : lock_safe clear_content.
Proof.
  apply safe_try_except.
  - apply safe_with_lock. lock_neutrality.
  - intros e. apply neutral_safe. unfold log_failure. lock_neutrality.
Qed.

Lemma safe_write_content appended : lock_safe (write_content appended).
Proof.
  unfold write_content. destruct (truthy appended); simpl;
    [|apply neutral_safe; lock_neutrality].
  apply safe_bind; [apply neutral_safe; lock_neutrality|]. intros present.
  apply safe_bind; [apply neutral_safe; lock_neutrality|]. intros _.
  apply safe_try_except.
  - apply safe_with_lock. unfold write_content_locked. lock_neutrality.
  - intros e. apply neutral_safe. unfold write_content_except, log_failure.
    lock_neutrality.
Qed.

Ltac lock_safety :=
  repeat first
    [ apply safe_read
    | apply safe_write
    | apply safe_clear_content
    | apply safe_write_content
    | apply safe_bind; [|intros ?]
    | match goal with
      | |- lock_safe (if ?b then _ else _) => destruct b
      end
    | apply neutral_safe; lock_neutrality ].

Lemma safe_read_content : lock_safe read_content.
Proof. unfold read_content. lock_safety. Qed.

(** *** Operations on a file without document *)

Lemma read_no_document w :
  lock_held w = false -> no_document w ->
  exists v w',
    read w = (Ret v, w')
    /\ (w' = w \/ exists e, w' = logged e "Fail to read JSON file %s" w)
    /\ (v = empty_dict \/ v = VNone).
Proof.
  intros Hl [Hf|[Hf|Hu]].
  - exists empty_dict, w. rewrite read_absent by done.
    split; [done|]. split; by left.
  - exists empty_dict, w. rewrite read_blank by done.
    split; [done|]. split; by left.
  - destruct (read_unreadable w Hl Hu) as [e He].
    exists VNone, (logged e "Fail to read JSON file %s" w).
    split; [done|]. split; [right; by exists e|by right].
Qed.

Lemma write_fails written w :
  lock_held w = false -> dir_exists w = true -> can_write w = false ->
  truthy written = true ->
  write written w
  = (Ret false, logged OSError "Fail to write JSON file %s" w).
Proof. intros Hl Hd Hw Ht. open_world w. unfold write. by rewrite Ht. Qed.



(** *** The lock among threads *)

Lemma locked_section_frees_lock record w :
  lock_held
    (snd (try_except (release_after (write_content_locked record))
            write_content_except w)) = false.
Proof.
  unfold try_except, release_after.
  destruct (write_content_locked record w) as [[b|e|] w1]; simpl;
    [by destruct w1| |by destruct w1].
  assert (Hn : lock_neutral (write_content_except e))
    by (unfold write_content_except, log_failure; lock_neutrality).
  destruct (Hn (set_lock false w1)) as [_ ->]. by destruct w1.
Qed.

Lemma lock_counts_step s i s' :
  holders (threads s) = (if lock_held (shared s) then 1 else 0)%nat ->
  step_thread i s = Some s' ->
  holders (threads s') = (if lock_held (shared s') then 1 else 0)%nat.
Proof.
  destruct s as [w ts]. simpl. intros Hlock. unfold step_thread. simpl.
  destruct (ts !! i) as [[record p]|] eqn:Hi; [|done].
  pose proof (replace_holders ts i record p) as Hholders.
  destruct p as [|present| | |r]; simpl.
  - destruct (truthy record); simpl; intros [= <-]; simpl.
    + specialize (Hholders (Checked (dir_exists w)) Hi). simpl in *. lia.
    + specialize (Hholders (Finished (Ret false)) Hi). simpl in *. lia.
  - destruct (neutral_os_makedirs w) as [Hr Hl].
    destruct present; simpl.
    + intros [= <-]. simpl.
      specialize (Hholders Waiting Hi). simpl in *. lia.
    + destruct (os_makedirs w) as [[u|e|] w1]; simpl in *; [| |done];
        intros [= <-]; simpl; rewrite Hl.
      * specialize (Hholders Waiting Hi). simpl in *. lia.
      * specialize (Hholders (Finished (Raise e)) Hi). simpl in *. lia.
  - unfold acquire. destruct (lock_held w) eqn:Hheld; [done|].
    intros [= <-]. simpl.
    specialize (Hholders Holding Hi). simpl in *.
    replace (lock_held (set_lock true w)) with true by by destruct w. lia.
  - pose proof (locked_section_frees_lock record w) as Hfree.
    pose proof (holder_counted ts i record Hi) as Hone.
    destruct (try_except _ _ w) as [r w1]. simpl in Hfree.
    intros [= <-]. simpl. rewrite Hfree.
    specialize (Hholders (Finished r) Hi). simpl in *.
    destruct (lock_held w); lia.
  - done.
Qed.

Lemma lock_counts_run schedule :
  forall s s',
    holders (threads s) = (if lock_held (shared s) then 1 else 0)%nat ->
    run_schedule schedule s = Some s' ->
    holders (threads s') = (if lock_held (shared s') then 1 else 0)%nat.
Proof.
  induction schedule as [|i schedule IH]; intros s s' Hlock; simpl.
  - by intros [= <-].
  - destruct (step_thread i s) as [s1|] eqn:Hstep; [|done].
    apply IH. by apply (lock_counts_step s i s1).
Qed.

(** *** The methods with a [try], case by case *)







(** *** Exceptions that leave the content methods *)





Ltac reach_content Hl Hr Hs Hn He :=
  rewrite (bind_ret _ _ _ _ _ (read_stored _ _ Hl Hr Hs)), Hn, He.

(** A readable file that parses to something else than [None] or an
    empty object, and has no [Content] to subscript. *)
Lemma content_missing w file_data e :
  lock_held w = false -> can_read w = true -> stored w file_data ->
  is_none file_data = false -> py_eq file_data empty_dict = false ->
  subscript file_data "Content" = Raise e ->
  read_content w = (Raise e, w)
  /\ (forall sought, is_in sought w = (Raise e, w))
  /\ (forall sought, is_in_position sought w = (Raise e, w))
  /\ (forall element_value uid,
        search_by_uid element_value uid w = (Raise e, w))
  /\ (forall element_value uid,
        remove_by_uid element_value uid w = (Raise e, w))
  /\ (forall updated uid, update updated uid w = (Raise e, w))
  /\ (forall updated uid1 uid2,
        update_twice updated uid1 uid2 w = (Raise e, w)).
Proof.
  intros Hl Hr Hs Hn He Hc.
  assert (Hcontent : read_content w = (Raise e, w)).
  { unfold read_content. reach_content Hl Hr Hs Hn He. unfold lift.
    by rewrite Hc. }
  split; [done|].
  split; [intros sought; unfold is_in; reach_content Hl Hr Hs Hn He;
          unfold lift, bind; by rewrite Hc|].
  split; [intros sought; unfold is_in_position; reach_content Hl Hr Hs Hn He;
          unfold lift, bind; by rewrite Hc|].
  split; [intros element_value uid; unfold search_by_uid;
          reach_content Hl Hr Hs Hn He; unfold lift, bind; by rewrite Hc|].
  split; [intros element_value uid; unfold remove_by_uid;
          by rewrite (bind_raise _ _ _ _ _ Hcontent)|].
  split; [intros updated uid; unfold update; reach_content Hl Hr Hs Hn He;
          unfold lift, bind; by rewrite Hc|].
  intros updated uid1 uid2. unfold update_twice. reach_content Hl Hr Hs Hn He.
  unfold lift, bind. by rewrite Hc.
Qed.







Lemma spawn_no_holder w records : holders (threads (spawn w records)) = 0%nat.
Proof. unfold spawn, holders. simpl. by induction records. Qed.

End MoreFacts.

(** ** The properties of the store *)

Module Properties.
Import ValueFacts StoreFacts MoreFacts Samples.

(** C4, as stated, fails: what [read_content] returns for an absent
    file is the mapping [{}], which is not an empty sequence, and on a
    readable, parseable document without the [Content] key it raises
    [KeyError]. *)
Lemma read_content_gives_mapping_or_raises :
  read_content fresh = (Ret empty_dict, fresh)
  /\ py_eq empty_dict (VList []) = false
  /\ read_content (holding no_content) = (Raise KeyError, holding no_content).
Proof. repeat split. Qed.

(** C4, amended.  [read_content] gives the empty mapping [{}], which
    runs through no element but does not equal the empty list, when the
    file is absent or empty, when it is unreadable (its text does not
    parse, or it cannot be opened), the failure being logged, and when it
    parses to [null] or to an empty object.  When a readable file parses to
    an object with a [Content] key it gives the value under that key.  When
    it parses to an object with other keys only it raises [KeyError], and
    when it parses to neither [null] nor an object it raises [TypeError];
    nothing is logged then. *)
Theorem read_content_empty_or_content (w : world) :
  lock_held w = false ->
  (file w = None \/ file w = Some Blank ->
   read_content w = (Ret empty_dict, w))
  /\ (unreadable w ->
      exists e, read_content w
                = (Ret empty_dict, logged e "Fail to read JSON file %s" w))
  /\ (forall file_data,
        can_read w = true -> stored w file_data ->
        file_data = VNone \/ file_data = VDict true [] ->
        read_content w = (Ret empty_dict, w))
  /\ (forall o items content,
        can_read w = true -> stored w (VDict o items) ->
        dict_get "Content" items = Some content ->
        read_content w = (Ret content, w))
  /\ (forall o items,
        can_read w = true -> stored w (VDict o items) ->
        items <> [] -> dict_get "Content" items = None ->
        read_content w = (Raise KeyError, w))
  /\ (forall file_data,
        can_read w = true -> stored w file_data ->
        file_data <> VNone -> (forall o items, file_data <> VDict o items) ->
        read_content w = (Raise TypeError, w))
  /\ py_iter empty_dict = Ret []
  /\ py_eq empty_dict (VList []) = false.
Proof.
  intros Hl. split; [|split; [|split; [|split; [|split; [|split]]]]].
  - by apply read_content_absent.
  - by apply read_content_unreadable.
  - intros file_data Hr Hs Hv. unfold read_content.
    rewrite (bind_ret _ _ _ _ _ (read_stored w _ Hl Hr Hs)).
    by destruct Hv as [-> | ->].
  - intros o items content. by apply read_content_stored.
  - intros o items Hr Hs Hitems Hc.
    apply (content_missing w (VDict o items) KeyError); try done.
    + by destruct items.
    + unfold subscript. by rewrite Hc.
  - intros file_data Hr Hs Hnone Hdict.
    apply (content_missing w file_data TypeError); try done.
    + by destruct file_data.
    + destruct file_data as [| | | | | |o items]; try done.
      by destruct (Hdict o items).
    + destruct file_data as [| | | | | |o items]; try done.
      by destruct (Hdict o items).
  - done.
Qed.

Lemma read_content_empty_or_content_witness :
  read_content fresh = (Ret empty_dict, fresh)
  /\ (exists e, read_content (with_text Malformed)
                = (Ret empty_dict,
                   logged e "Fail to read JSON file %s" (with_text Malformed)))
  /\ read_content (holding JNull) = (Ret empty_dict, holding JNull)
  /\ read_content (holding two_records)
     = (Ret (VList [decode true (record 1 "a"); decode true (record 2 "b")]),
        holding two_records)
  /\ read_content (holding no_content) = (Raise KeyError, holding no_content)
  /\ read_content (holding (JArr [])) = (Raise TypeError, holding (JArr [])).
Proof.
  split; [|split; [|split; [|split; [|split]]]].
  - apply (read_content_empty_or_content fresh); [reflexivity|].
    left. reflexivity.
  - apply (read_content_empty_or_content (with_text Malformed)); [reflexivity|].
    left. reflexivity.
  - destruct (read_content_empty_or_content (holding JNull) eq_refl)
      as (_ & _ & Hempty & _).
    apply (Hempty VNone); [reflexivity| |left; reflexivity].
    exists JNull. split; reflexivity.
  - destruct (read_content_empty_or_content (holding two_records) eq_refl)
      as (_ & _ & _ & Hdoc & _).
    apply (Hdoc true (dict_of_pairs [("Content",
             VList [decode true (record 1 "a"); decode true (record 2 "b")])]));
      [reflexivity| |reflexivity].
    exists two_records. split; reflexivity.
  - destruct (read_content_empty_or_content (holding no_content) eq_refl)
      as (_ & _ & _ & _ & Hkey & _).
    apply (Hkey true [("a", VInt 1)]);
      [reflexivity| |discriminate|reflexivity].
    exists no_content. split; reflexivity.
  - destruct (read_content_empty_or_content (holding (JArr [])) eq_refl)
      as (_ & _ & _ & _ & _ & Htype & _).
    apply (Htype (VList [])); [reflexivity| |discriminate|discriminate].
    exists (JArr []). split; reflexivity.
Defined.

(** C7. [clear_content] returns [True] only when the file exists and is
    not empty; the file then holds the empty skeleton and a following
    [read_content] gives an empty collection (the list [[]] when the file
    can be opened).  On an existing non-empty writable file it does return
    [True].  On a missing or empty file it returns [False] and leaves the
    world as it was: no file is created. *)
Theorem clear_content_needs_nonempty_file (w : world) :
  (forall w', clear_content w = (Ret true, w') ->
     (exists c, file w = Some c /\ c <> Blank)
     /\ file w' = Some (Encoded skeleton)
     /\ exists v w'', read_content w' = (Ret v, w'')
                      /\ py_iter v = Ret []
                      /\ (can_read w = true -> v = VList []))
  /\ (forall c, lock_held w = false -> can_write w = true ->
                file w = Some c -> c <> Blank ->
                clear_content w
                = (Ret true, set_file (Some (Encoded skeleton)) w))
  /\ (lock_held w = false -> file w = None \/ file w = Some Blank ->
      clear_content w = (Ret false, w)).
Proof.
  split; [|split].
  - intros w' H. open_world w.
    destruct l; [done|].
    destruct f as [c|]; [|done].
    destruct c as [| |j], wr; try done; injection H as <-; simpl.
    all: (split; [eexists; split; [reflexivity|done]|]).
    all: (split; [done|]).
    all: destruct r; eexists _, _; (split; [reflexivity|]); by split.
  - intros c Hl Hw Hf Hc. open_world w. by destruct c.
  - intros Hl [Hf|Hf]; by open_world w.
Qed.

Lemma clear_content_needs_nonempty_file_witness :
  clear_content (holding two_records) = (Ret true, holding skeleton)
  /\ read_content (holding skeleton) = (Ret (VList []), holding skeleton)
  /\ clear_content fresh = (Ret false, fresh)
  /\ clear_content (with_text Blank) = (Ret false, with_text Blank).
Proof.
  destruct (clear_content_needs_nonempty_file (holding two_records))
    as (Honly & Hdoes & _).
  split; [|split; [|split]].
  - apply (Hdoes (Encoded two_records)); [reflexivity..|discriminate].
  - reflexivity.
  - apply (clear_content_needs_nonempty_file fresh); [reflexivity|].
    left. reflexivity.
  - apply (clear_content_needs_nonempty_file (with_text Blank)); [reflexivity|].
    right. reflexivity.
Defined.

(** C3. On a readable document, [is_in_position] returns [True] with
    the zero-based index of the first record equal to the given one; when
    no record is equal it returns [False] with the number of records as
    index, where the specification asks for [-1].  That index comes back only
    from the two early returns, for an unreadable file or an empty
    document. *)
Theorem is_in_position_index (w : world) o items data :
  lock_held w = false -> can_read w = true -> stored w (VDict o items) ->
  (forall pre r post,
     dict_get "Content" items = Some (VList (pre ++ r :: post)) ->
     Forall (fun x => py_eq data x = false) pre -> py_eq data r = true ->
     is_in_position data w = (Ret (true, Z.of_nat (length pre)), w))
  /\ (forall xs,
        dict_get "Content" items = Some (VList xs) ->
        Forall (fun x => py_eq data x = false) xs ->
        is_in_position data w = (Ret (false, Z.of_nat (length xs)), w)).
Proof.
  intros Hl Hr Hs. split.
  - intros pre r post Hc Hpre Hhit.
    rewrite (is_in_position_stored w o items _ data Hl Hr Hs Hc).
    by rewrite (is_in_position_loop_found data pre r post 0 Hpre Hhit).
  - intros xs Hc Hxs.
    rewrite (is_in_position_stored w o items _ data Hl Hr Hs Hc).
    by rewrite (is_in_position_loop_missing data xs 0 Hxs).
Qed.

Lemma is_in_position_index_witness :
  is_in_position (decode false (record 2 "b")) (holding two_records)
  = (Ret (true, 1), holding two_records)
  /\ is_in_position (decode false (record 3 "c")) (holding two_records)
     = (Ret (false, 2), holding two_records).
Proof.
  assert (Hs : stored (holding two_records) (decode true two_records))
    by (exists two_records; split; reflexivity).
  split.
  - apply (proj1 (is_in_position_index (holding two_records) _ _
                    (decode false (record 2 "b")) eq_refl eq_refl Hs)
             [decode true (record 1 "a")] (decode true (record 2 "b")) []);
      [reflexivity| |reflexivity].
    repeat constructor.
  - apply (proj2 (is_in_position_index (holding two_records) _ _
                    (decode false (record 3 "c")) eq_refl eq_refl Hs)
             [decode true (record 1 "a"); decode true (record 2 "b")]);
      [reflexivity|].
    repeat constructor.
Defined.

(** C8, as stated, fails: a truthy record that is no mapping, or a
    mapping without the field, standing before the record sought, ends the
    scan with [TypeError] or [KeyError]; nothing is returned. *)
Lemma search_by_uid_raises_before_match :
  search_by_uid (VInt 2) "id" (holding number_first)
  = (Raise TypeError, holding number_first)
  /\ search_by_uid (VInt 2) "id" (holding id_missing_first)
     = (Raise KeyError, holding id_missing_first).
Proof. split; reflexivity. Qed.

(** C8, amended.  On a readable document, [search_by_uid] scans
    [Content] in order and goes past every falsy record and every record
    that has the field with a value other than the one sought.  When the
    records before the first record whose field equals the value are all
    of these two kinds, it returns [found = True] with that record; when
    all records of [Content] are of these two kinds it returns
    [found = False] and [None]. *)
Theorem search_by_uid_first_match (w : world) o items element_value uid :
  lock_held w = false -> can_read w = true -> stored w (VDict o items) ->
  (forall pre r x post,
     dict_get "Content" items = Some (VList (pre ++ r :: post)) ->
     Forall (passed_over element_value uid) pre ->
     field uid r x -> py_eq x element_value = true ->
     search_by_uid element_value uid w = (Ret (SearchResult true r), w))
  /\ (forall xs,
        dict_get "Content" items = Some (VList xs) ->
        Forall (passed_over element_value uid) xs ->
        search_by_uid element_value uid w
        = (Ret (SearchResult false VNone), w)).
Proof.
  intros Hl Hr Hs. split.
  - intros pre r x post Hc Hpre Hf Hx.
    rewrite (search_by_uid_stored w o items _ _ _ Hl Hr Hs Hc).
    by rewrite (search_loop_found _ _ pre r x post Hpre Hf Hx).
  - intros xs Hc Hxs.
    rewrite (search_by_uid_stored w o items _ _ _ Hl Hr Hs Hc).
    by rewrite (search_loop_missing _ _ xs Hxs).
Qed.

Lemma search_by_uid_first_match_witness :
  search_by_uid (VInt 2) "id" (holding two_records)
  = (Ret (SearchResult true (decode true (record 2 "b"))), holding two_records)
  /\ search_by_uid (VInt 3) "id" (holding two_records)
     = (Ret (SearchResult false VNone), holding two_records).
Proof.
  assert (Hs : stored (holding two_records) (decode true two_records))
    by (exists two_records; split; reflexivity).
  split.
  - apply (proj1 (search_by_uid_first_match (holding two_records) _ _
                    (VInt 2) "id" eq_refl eq_refl Hs)
             [decode true (record 1 "a")] (decode true (record 2 "b"))
             (VInt 2) []); [reflexivity| |reflexivity|reflexivity].
    constructor; [|constructor]. right. exists (VInt 1). split; reflexivity.
  - apply (proj2 (search_by_uid_first_match (holding two_records) _ _
                    (VInt 3) "id" eq_refl eq_refl Hs)
             [decode true (record 1 "a"); decode true (record 2 "b")]);
      [reflexivity|].
    constructor; [|constructor; [|constructor]]; right.
    + exists (VInt 1). split; reflexivity.
    + exists (VInt 2). split; reflexivity.
Defined.
















(** C9. Two threads append two distinct records to a fresh path whose
    directory does not exist yet.  Both see the directory missing before
    either creates it; the first [os.makedirs] succeeds, the second raises
    [FileExistsError] outside the [try], which ends that thread's call.
    The final document holds one record, not two.  (On a path without a
    directory part even a single call raises and no file appears.) *)
Theorem concurrent_append_loses_record :
  let first := decode false (record 1 "a") in
  let second := decode false (record 2 "b") in
  exists final,
    run_schedule [0; 1; 0; 1; 0; 0]%nat (spawn missing_directory [first; second])
    = Some final
    /\ all_finished final = true
    /\ threads final
       = [(first, Finished (Ret true));
          (second, Finished (Raise FileExistsError))]
    /\ file (shared final) = Some (Encoded (document [record 1 "a"]))
    /\ write_content first bare_path = (Raise OSError, bare_path).
Proof.
  intros first second. eexists. split; [reflexivity|]. by repeat split.
Qed.

End Properties.

(** ** Further properties of the store *)

Module MoreProperties.
Import ValueFacts StoreFacts ThreadFacts MoreFacts Samples.



(** X2. On a missing or empty file, [write_content] of a truthy record
    makes the directory if it is missing, returns [True] and leaves a
    document whose [Content] holds that record alone; [read_content] then
    gives the one-element list. *)
Theorem first_append_creates_document (w : world) appended :
  lock_held w = false -> can_read w = true -> can_write w = true ->
  directory_available w -> truthy appended = true ->
  file w = None \/ file w = Some Blank ->
  exists w1,
    write_content appended w = (Ret true, w1)
    /\ dir_exists w1 = true
    /\ file w1 = Some (document_of [appended])
    /\ read_content w1 = (Ret (VList [reread appended]), w1).
Proof.
  intros Hl Hr Hw Hd Ht Hf.
  destruct (creation_reads_back w appended Hl Hr Hw Hd Ht Hf)
    as (w1 & Hwrite & Hl1 & Hr1 & Hd1 & Hf1 & Hs1).
  exists w1. repeat split; try done.
  by apply (read_content_stored w1 true _ _ Hl1 Hr1 Hs1).
Qed.

Lemma first_append_creates_document_witness :
  exists w1,
    write_content (decode false (record 1 "a")) missing_directory
    = (Ret true, w1)
    /\ dir_exists w1 = true
    /\ file w1 = Some (Encoded (document [record 1 "a"]))
    /\ read_content w1 = (Ret (VList [decode true (record 1 "a")]), w1).
Proof.
  apply (first_append_creates_document missing_directory
           (decode false (record 1 "a"))); try reflexivity.
  - right. reflexivity.
  - left. reflexivity.
Defined.

(** X3. A truthy record made of [None], booleans, integers, strings,
    lists and dictionaries with distinct string keys (no tuple) that
    [write_content] has appended, to a document or to a missing or empty
    file, is then found by [is_in]. *)
Theorem appended_record_is_in (w : world) appended :
  lock_held w = false -> can_read w = true -> can_write w = true ->
  dir_exists w = true ->
  truthy appended = true -> well_keyed appended = true ->
  tuple_free appended = true ->
  (file w = None \/ file w = Some Blank)
  \/ (exists o items xs,
        stored w (VDict o items)
        /\ dict_get "Content" items = Some (VList xs)) ->
  exists w1,
    write_content appended w = (Ret true, w1)
    /\ is_in appended w1 = (Ret true, w1).
Proof.
  intros Hl Hr Hw Hd Ht Hk Hfree [Hf|(o & items & xs & Hs & Hc)].
  - destruct (creation_reads_back w appended Hl Hr Hw (or_introl Hd) Ht Hf)
      as (w1 & Hwrite & Hl1 & Hr1 & _ & _ & Hs1).
    exists w1. split; [done|].
    rewrite (is_in_stored w1 true _ [reread appended] appended Hl1 Hr1 Hs1 eq_refl).
    unfold reread. cbn [is_in_loop].
    by rewrite (proj1 (py_eq_decode_encode true appended Hk Hfree)).
  - destruct (append_reads_back w o items xs appended Hl Hr Hw Hd Ht Hs Hc)
      as (w1 & Hwrite & Hl1 & Hr1 & Hs1).
    exists w1. split; [done|].
    rewrite (is_in_stored w1 true _ (xs ++ [reread appended]) appended
               Hl1 Hr1 Hs1 (dict_get_set_eq _ _ _)).
    by rewrite (is_in_loop_last appended xs (reread appended)
                  (proj1 (py_eq_decode_encode true appended Hk Hfree))).
Qed.

Lemma appended_record_is_in_witness :
  exists w1,
    write_content (decode false (record 3 "c")) (holding two_records)
    = (Ret true, w1)
    /\ is_in (decode false (record 3 "c")) w1 = (Ret true, w1).
Proof.
  apply (appended_record_is_in (holding two_records)
           (decode false (record 3 "c"))); try reflexivity.
  right. eexists _, _, _. split; [exists two_records; split; reflexivity|].
  reflexivity.
Defined.

(** X4. When the file exists and is not empty (its directory therefore
    exists), [write_content] returns [False] and leaves the file as it
    was, logging the exception it caught and the message of the [except]
    clause that caught it, in each of these cases: the record is falsy
    (nothing is logged); the file cannot be opened for reading; its text
    is not JSON; [content["Content"].append] raises; the file cannot be
    opened for writing.  In all of them the failure comes before anything
    is written. *)
Theorem failed_append_keeps_existing_file (w : world) appended c :
  lock_held w = false -> dir_exists w = true ->
  file w = Some c -> c <> Blank ->
  (truthy appended = false -> write_content appended w = (Ret false, w))
  /\ (truthy appended = true -> can_read w = false ->
      write_content appended w
      = (Ret false, logged OSError "I/O fail (%s): %s" w))
  /\ (truthy appended = true -> can_read w = true -> c = Malformed ->
      write_content appended w
      = (Ret false, logged ValueError "Data conversion fail" w))
  /\ (forall j e,
        truthy appended = true -> can_read w = true -> c = Encoded j ->
        append_to_content (decode true j) appended = Raise e ->
        write_content appended w
        = (Ret false, logged e "Fail to write content of JSON file %s" w))
  /\ (forall j content',
        truthy appended = true -> can_read w = true -> c = Encoded j ->
        append_to_content (decode true j) appended = Ret content' ->
        can_write w = false ->
        write_content appended w
        = (Ret false, logged OSError "I/O fail (%s): %s" w))
  /\ forall e msg, file (logged e msg w) = file w.
Proof.
  intros Hl Hd Hf Hc. repeat split.
  - apply write_content_falsy.
  - intros Ht Hr. by apply (write_content_unreadable w appended c).
  - intros Ht Hr ->. by apply write_content_malformed.
  - intros j e Ht Hr -> Ha.
    by apply (write_content_append_raises w appended j e).
  - intros j content' Ht Hr -> Ha Hw.
    by apply (write_content_unwritable w appended j content').
Qed.

Lemma failed_append_keeps_existing_file_witness :
  write_content (VInt 1) (with_text Malformed)
  = (Ret false, logged ValueError "Data conversion fail" (with_text Malformed))
  /\ write_content (VInt 1) (holding no_content)
     = (Ret false,
        logged KeyError "Fail to write content of JSON file %s"
          (holding no_content)).
Proof.
  destruct (failed_append_keeps_existing_file (with_text Malformed) (VInt 1)
              Malformed) as (_ & _ & Hmalformed & _);
    [reflexivity|reflexivity|reflexivity|discriminate|].
  destruct (failed_append_keeps_existing_file (holding no_content) (VInt 1)
              (Encoded no_content)) as (_ & _ & _ & Hraises & _);
    [reflexivity|reflexivity|reflexivity|discriminate|].
  split.
  - apply Hmalformed; reflexivity.
  - apply (Hraises no_content KeyError); reflexivity.
Defined.

(** X5. On a readable document that has no [Content] key, or whose
    [Content] is not a list, [write_content] of a truthy record catches the
    [KeyError] or [AttributeError], logs it with the message of its last
    [except] clause, returns [False] and changes nothing else. *)
Theorem append_needs_content_list (w : world) o items appended :
  lock_held w = false -> can_read w = true -> dir_exists w = true ->
  truthy appended = true -> stored w (VDict o items) ->
  (dict_get "Content" items = None ->
   write_content appended w
   = (Ret false,
      logged KeyError "Fail to write content of JSON file %s" w))
  /\ (forall c,
        dict_get "Content" items = Some c -> (forall xs, c <> VList xs) ->
        write_content appended w
        = (Ret false,
           logged AttributeError "Fail to write content of JSON file %s" w)).
Proof.
  intros Hl Hr Hd Ht Hs. split.
  - intros Hc.
    by apply (write_content_raising_append w appended (VDict o items));
      [..|apply append_without_content| |].
  - intros c Hc Hlist.
    by apply (write_content_raising_append w appended (VDict o items));
      [..|apply (append_to_non_list o items c)| |].
Qed.

Lemma append_needs_content_list_witness :
  write_content (VInt 1) (holding no_content)
  = (Ret false,
     logged KeyError "Fail to write content of JSON file %s"
       (holding no_content))
  /\ write_content (VInt 1) (holding (JObj [("Content", JStr "x")]))
     = (Ret false,
        logged AttributeError "Fail to write content of JSON file %s"
          (holding (JObj [("Content", JStr "x")]))).
Proof.
  split.
  - apply (proj1 (append_needs_content_list (holding no_content) true
                    [("a", VInt 1)] (VInt 1) eq_refl eq_refl eq_refl eq_refl
                    (ex_intro _ no_content (conj eq_refl eq_refl)))).
    reflexivity.
  - apply (proj2 (append_needs_content_list
                    (holding (JObj [("Content", JStr "x")])) true
                    [("Content", VStr "x")] (VInt 1)
                    eq_refl eq_refl eq_refl eq_refl
                    (ex_intro _ (JObj [("Content", JStr "x")])
                       (conj eq_refl eq_refl))) (VStr "x"));
      [reflexivity|discriminate].
Defined.

(** X6. [delete] removes the file and returns [True], also when there is
    no file, in which case nothing changes; calling it again returns [True]
    again, and [read] then gives [{}].  When the file cannot be removed it
    returns [False], logs, and the file stays. *)
Theorem delete_is_idempotent (w : world) :
  lock_held w = false ->
  (file w = None \/ can_remove w = true ->
   delete w = (Ret true, set_file None w)
   /\ delete (set_file None w) = (Ret true, set_file None w)
   /\ read (set_file None w) = (Ret empty_dict, set_file None w)
   /\ (file w = None -> set_file None w = w))
  /\ (forall c,
        file w = Some c -> can_remove w = false ->
        delete w
        = (Ret false, logged OSError "Fail to remove JSON file %s" w)).
Proof.
  intros Hl. split.
  - intros Hok. open_world w. unfold delete. unfold_ops. simpl.
    destruct f as [c|]; simpl.
    + destruct Hok as [?| ->]; [done|]. repeat split; try done.
    + repeat split; done.
  - intros c Hf Hrm. by open_world w.
Qed.

Lemma delete_is_idempotent_witness :
  delete (holding two_records) = (Ret true, fresh)
  /\ delete fresh = (Ret true, fresh)
  /\ read fresh = (Ret empty_dict, fresh).
Proof.
  destruct (delete_is_idempotent (holding two_records) eq_refl) as [Hok _].
  destruct (Hok (or_intror eq_refl)) as (H1 & H2 & H3 & _).
  split; [exact H1|]. split; [exact H2|exact H3].
Defined.

(** X7. In every world, [is_in] ends as [is_in_position] does, with the
    same world, and returns the [found] flag of the pair [is_in_position]
    returns. *)
Theorem is_in_is_found_of_is_in_position (w : world) sought :
  is_in sought w
  = (result_map fst (fst (is_in_position sought w)),
     snd (is_in_position sought w)).
Proof.
  unfold is_in, is_in_position, bind.
  destruct (read w) as [[file_data| |] w']; try done.
  destruct (is_none file_data); [done|].
  destruct (py_eq file_data empty_dict); [done|].
  unfold lift.
  destruct (subscript file_data "Content") as [content| |]; try done.
  destruct (py_iter content) as [elements| |]; try done.
  unfold ret. simpl. f_equal. f_equal. apply is_in_loop_found.
Qed.

(** X8. [read] tells a missing or empty file from an unreadable one: it
    returns [{}] and logs nothing for the former, [None] and two log
    lines for the latter, and the two values differ.  A file whose text
    is the JSON [null] also gives [None], without any log line. *)
Theorem read_tells_absent_from_unreadable (w : world) :
  lock_held w = false ->
  (file w = None \/ file w = Some Blank -> read w = (Ret empty_dict, w))
  /\ (unreadable w ->
      exists e, read w = (Ret VNone, logged e "Fail to read JSON file %s" w))
  /\ (file w = Some (Encoded JNull) -> can_read w = true ->
      read w = (Ret VNone, w))
  /\ py_eq VNone empty_dict = false.
Proof.
  intros Hl. split; [|split; [|split]].
  - intros [Hf|Hf]; [by apply read_absent|by apply read_blank].
  - by apply read_unreadable.
  - intros Hf Hr. by rewrite (read_encoded w JNull).
  - done.
Qed.

Lemma read_tells_absent_from_unreadable_witness :
  read fresh = (Ret empty_dict, fresh)
  /\ (exists e, read (with_text Malformed)
                = (Ret VNone,
                   logged e "Fail to read JSON file %s" (with_text Malformed)))
  /\ read (holding JNull) = (Ret VNone, holding JNull).
Proof.
  split; [|split].
  - apply (read_tells_absent_from_unreadable fresh); [reflexivity|].
    left. reflexivity.
  - apply (read_tells_absent_from_unreadable (with_text Malformed));
      [reflexivity|]. left. reflexivity.
  - apply (read_tells_absent_from_unreadable (holding JNull)); reflexivity.
Defined.

(** X9. [write] replaces the whole file: of two writes of truthy values
    the second alone shows in the file, and [read] gives it back as read
    from its dump. *)
Theorem last_write_wins (w : world) first second :
  lock_held w = false -> can_read w = true -> can_write w = true ->
  directory_available w ->
  truthy first = true -> truthy second = true ->
  exists w1 w2,
    write first w = (Ret true, w1)
    /\ write second w1 = (Ret true, w2)
    /\ file w2 = Some (Encoded (encode second))
    /\ read w2 = (Ret (reread second), w2).
Proof.
  intros Hl Hr Hw Hd Ht1 Ht2.
  exists (set_file (Some (Encoded (encode first))) (set_dir_exists true w)).
  exists (set_file (Some (Encoded (encode second))) (set_dir_exists true w)).
  split; [|split; [|split]].
  - destruct (dir_exists w) eqn:He.
    + rewrite write_done by done. f_equal. by open_world w.
    + destruct Hd as [?|Hm]; [congruence|]. by rewrite write_makes_directory.
  - rewrite write_done; by open_world w.
  - by open_world w.
  - by apply read_encoded.
Qed.

Lemma last_write_wins_witness :
  exists w1 w2,
    write (VInt 1) fresh = (Ret true, w1)
    /\ write (decode false two_records) w1 = (Ret true, w2)
    /\ file w2 = Some (Encoded (encode (decode false two_records)))
    /\ read w2 = (Ret (reread (decode false two_records)), w2).
Proof.
  apply (last_write_wins fresh (VInt 1) (decode false two_records));
    try reflexivity.
  left. reflexivity.
Defined.

(** X10. On a path without a directory part, [write] and [write_content]
    of any truthy value raise [OSError] from [os.makedirs], before their
    [try]: nothing is written, nothing is logged, whatever the file. *)
Theorem writers_raise_without_directory (w : world) written :
  no_directory w -> truthy written = true ->
  write written w = (Raise OSError, w)
  /\ write_content written w = (Raise OSError, w).
Proof.
  intros [Hd Hm] Ht. unfold write, write_content. rewrite Ht.
  open_world w. done.
Qed.

Lemma writers_raise_without_directory_witness :
  write (VInt 1) bare_path = (Raise OSError, bare_path)
  /\ write_content (VInt 1) bare_path = (Raise OSError, bare_path).
Proof.
  apply (writers_raise_without_directory bare_path (VInt 1));
    [split; reflexivity|reflexivity].
Defined.

(** X11. With the same field given twice, [update_twice] is [update], in
    every world and for every record. *)
Theorem update_twice_same_field_is_update (w : world) updated uid :
  update_twice updated uid uid w = update updated uid w.
Proof.
  unfold update_twice, update, bind.
  destruct (read w) as [[file_data| |] w']; try done.
  destruct (is_none file_data); [done|].
  destruct (py_eq file_data empty_dict); [done|].
  unfold lift.
  destruct (subscript file_data "Content") as [content| |]; try done.
  destruct (py_iter content) as [elements| |]; try done.
  by rewrite update_twice_loop_same.
Qed.

(** X12. The reading operations [read], [read_content], [is_in],
    [is_in_position] and [search_by_uid] change nothing but the log, in
    every world and however they end: the file, the directory, the
    permissions and the lock are as before. *)
Theorem readers_only_log :
  only_logs read
  /\ only_logs read_content
  /\ (forall sought, only_logs (is_in sought))
  /\ (forall sought, only_logs (is_in_position sought))
  /\ (forall element_value uid, only_logs (search_by_uid element_value uid)).
Proof.
  split; [apply only_logs_read|].
  split; [unfold read_content; only_logging|].
  split; [intros sought; unfold is_in; only_logging|].
  split; [intros sought; unfold is_in_position; only_logging|].
  intros element_value uid. unfold search_by_uid. only_logging.
Qed.

(** X13. Called with the lock free, none of the twelve methods blocks,
    and each ends with the lock free, whether it returns or raises: every
    [with self.lock] is left before the next one is entered, also in the
    methods that call other methods. *)
Theorem every_method_frees_the_lock :
  lock_safe read
  /\ (forall written, lock_safe (write written))
  /\ lock_safe delete
  /\ lock_safe read_content
  /\ (forall appended, lock_safe (write_content appended))
  /\ (forall sought, lock_safe (is_in sought))
  /\ (forall sought, lock_safe (is_in_position sought))
  /\ (forall element_value uid, lock_safe (remove_by_uid element_value uid))
  /\ (forall element_value uid, lock_safe (search_by_uid element_value uid))
  /\ (forall updated uid, lock_safe (update updated uid))
  /\ (forall updated uid1 uid2, lock_safe (update_twice updated uid1 uid2))
  /\ lock_safe clear_content.
Proof.
  split; [apply safe_read|].
  split; [apply safe_write|].
  split; [apply safe_delete|].
  split; [apply safe_read_content|].
  split; [apply safe_write_content|].
  split; [intros sought; unfold is_in; lock_safety|].
  split; [intros sought; unfold is_in_position; lock_safety|].
  split.
  { intros element_value uid. unfold remove_by_uid.
    apply safe_bind; [apply safe_read_content|]. intros file_content.
    lock_safety. }
  split; [intros element_value uid; unfold search_by_uid; lock_safety|].
  split; [intros updated uid; unfold update; lock_safety|].
  split; [intros updated uid1 uid2; unfold update_twice; lock_safety|].
  apply safe_clear_content.
Qed.

(** X14. When the file is absent, empty or unreadable, every lookup
    and every change by value or by field reports "not found" with its
    failure value ([-1] being the index of [is_in_position]), raises
    nothing and leaves the file as it is; [update] and [update_twice] do not
    even log their "not found" line. *)
Theorem nothing_found_without_document (w : world) :
  lock_held w = false -> no_document w ->
  exists w',
    (w' = w \/ exists e, w' = logged e "Fail to read JSON file %s" w)
    /\ file w' = file w
    /\ (forall sought,
          is_in sought w = (Ret false, w')
          /\ is_in_position sought w = (Ret (false, -1), w'))
    /\ (forall element_value uid,
          search_by_uid element_value uid w
          = (Ret (SearchResult false VNone), w')
          /\ remove_by_uid element_value uid w = (Ret false, w'))
    /\ (forall updated uid uid2,
          update updated uid w = (Ret false, w')
          /\ update_twice updated uid uid2 w = (Ret false, w')).
Proof.
  intros Hl Hn.
  destruct (read_no_document w Hl Hn) as (v & w' & Hread & Hw' & Hv).
  exists w'. split; [done|]. split.
  { destruct Hw' as [->|[e ->]]; [done|by destruct w]. }
  assert (Hcontent : read_content w = (Ret empty_dict, w')).
  { unfold read_content. rewrite (bind_ret _ _ _ _ _ Hread).
    by destruct Hv as [-> | ->]. }
  split; [|split].
  - intros sought. unfold is_in, is_in_position.
    rewrite !(bind_ret _ _ _ _ _ Hread). by destruct Hv as [-> | ->].
  - intros element_value uid. unfold search_by_uid, remove_by_uid.
    rewrite (bind_ret _ _ _ _ _ Hread), (bind_ret _ _ _ _ _ Hcontent).
    by destruct Hv as [-> | ->].
  - intros updated uid uid2. unfold update, update_twice.
    rewrite !(bind_ret _ _ _ _ _ Hread). by destruct Hv as [-> | ->].
Qed.

Lemma nothing_found_without_document_witness :
  is_in_position (VInt 1) fresh = (Ret (false, -1), fresh)
  /\ update (VInt 1) "id" fresh = (Ret false, fresh).
Proof.
  destruct (nothing_found_without_document fresh eq_refl (or_introl eq_refl))
    as (w' & [->|[e ->]] & _ & Hin & _ & Hupdate).
  - split; [apply (Hin (VInt 1))|apply (Hupdate (VInt 1) "id" "id")].
  - destruct (Hin (VInt 1)) as [Habs _]. discriminate Habs.
Defined.

(** X15. [update] returns what its search found, not what [write] did:
    on a readable document that cannot be written, with a match, it
    returns [True] although [write] failed, logged the failure, and the
    file is what it was. *)
Theorem update_reports_match_not_write (w : world) o items updated uid a
    pre r b post :
  lock_held w = false -> can_read w = true -> can_write w = false ->
  dir_exists w = true -> stored w (VDict o items) -> field uid updated a ->
  dict_get "Content" items = Some (VList (pre ++ r :: post)) ->
  Forall (differs a uid) pre -> field uid r b -> py_eq a b = true ->
  update updated uid w
  = (Ret true, logged OSError "Fail to write JSON file %s" w)
  /\ file (logged OSError "Fail to write JSON file %s" w) = file w.
Proof.
  intros Hl Hr Hw Hd Hs Ha Hc Hpre Hb Hab. split; [|by destruct w].
  unfold update.
  rewrite (bind_ret _ _ _ _ _ (read_stored w _ Hl Hr Hs)).
  cbn [is_none]. rewrite (py_eq_empty_dict _ _ _ _ Hc).
  unfold lift at 1, bind at 1, subscript. rewrite Hc.
  unfold py_iter, lift at 1, bind at 1.
  rewrite (update_loop_found _ _ _ _ _ _ _ 0%nat Ha Hpre Hb Hab).
  unfold lift at 1, bind at 1. cbn [fst snd Nat.add].
  rewrite (replace_record_stored o items pre r post updated Hc).
  unfold lift, bind at 1.
  erewrite bind_ret; [done|].
  apply write_fails; try done. apply dict_set_truthy.
Qed.

Lemma update_reports_match_not_write_witness :
  let read_only :=
    World (Some (Encoded two_records)) true true true false true false [] in
  update (VDict false [("id", VInt 1); ("v", VStr "z")]) "id" read_only
  = (Ret true, logged OSError "Fail to write JSON file %s" read_only).
Proof.
  intros read_only.
  apply (update_reports_match_not_write read_only true
           (dict_of_pairs [("Content",
              VList [decode true (record 1 "a"); decode true (record 2 "b")])])
           (VDict false [("id", VInt 1); ("v", VStr "z")]) "id" (VInt 1)
           [] (decode true (record 1 "a")) (VInt 1)
           [decode true (record 2 "b")]); try reflexivity.
  - exists two_records. split; reflexivity.
  - constructor.
Defined.

(** X16. On a path without a directory part whose file holds a document,
    [remove_by_uid] that finds a match and has a truthy record left clears
    the file and then raises [OSError] from the [os.makedirs] of
    [write_content]: the document is left with no record at all. *)
Theorem remove_by_uid_without_directory_empties (w : world) o items
    element_value uid pre r x post first rest :
  lock_held w = false -> can_read w = true -> can_write w = true ->
  no_directory w -> stored w (VDict o items) ->
  dict_get "Content" items = Some (VList (pre ++ r :: post)) ->
  Forall (not_matching element_value uid) pre ->
  field uid r x -> py_eq x element_value = true ->
  pre ++ post = first :: rest -> truthy first = true ->
  remove_by_uid element_value uid w
  = (Raise OSError, set_file (Some (Encoded skeleton)) w).
Proof.
  intros Hl Hr Hw Hnd Hs Hc Hpre Hx Heq Hleft Ht.
  rewrite (remove_by_uid_stored w o items _ _ _ Hl Hr Hs Hc).
  rewrite (remove_loop_found _ _ pre r x post 0 Hpre Hx Heq).
  unfold lift at 1, bind at 1. cbn [Nat.add].
  rewrite (remove_at_middle element_value uid pre r x post); try done.
  - unfold lift at 1, bind at 1. rewrite Hleft.
    destruct (stored_not_blank _ _ Hs) as (c & Hf & Hne).
    rewrite (bind_ret _ _ _ _ _ (clear_content_done w c Hl Hw Hf Hne)).
    cbn [truthy first_item]. unfold lift at 1, bind at 1.
    erewrite bind_raise; [done|].
    unfold write_content. rewrite Ht. destruct Hnd as [Hd Hm].
    destruct w as [? ? ? ? ? ? ? ?]; simpl in *; by subst.
  - apply stored_all_ordered in Hs.
    apply (all_ordered_subscript _ "Content" _ Hs). unfold subscript.
    by rewrite Hc.
Qed.

Lemma remove_by_uid_without_directory_empties_witness :
  let bare :=
    World (Some (Encoded three_records)) false false true true true false [] in
  remove_by_uid (VInt 2) "id" bare
  = (Raise OSError, set_file (Some (Encoded skeleton)) bare).
Proof.
  intros bare.
  apply (remove_by_uid_without_directory_empties bare true
           (dict_of_pairs [("Content",
              VList [decode true (record 1 "a"); decode true (record 2 "b");
                     decode true (record 3 "c")])])
           (VInt 2) "id" [decode true (record 1 "a")]
           (decode true (record 2 "b")) (VInt 2) [decode true (record 3 "c")]
           (decode true (record 1 "a")) [decode true (record 3 "c")]);
    try reflexivity.
  - split; reflexivity.
  - exists three_records. split; reflexivity.
  - constructor; [|constructor]. exists (VInt 1). split; reflexivity.
Defined.



(** X18. However many threads call [write_content] on one handle,
    whatever their records and the state of the file system, and in every
    interleaving that starts with the lock free: at most one thread is
    inside [with self.lock], and the lock is held exactly when one is. *)
Theorem lock_excludes (w : world) (records : list value) schedule s :
  lock_held w = false ->
  run_schedule schedule (spawn w records) = Some s ->
  mutual_exclusion s
  /\ (lock_held (shared s) = true <-> holders (threads s) = 1%nat).
Proof.
  intros Hl Hrun.
  assert (H : holders (threads s)
              = (if lock_held (shared s) then 1 else 0)%nat).
  { apply (lock_counts_run schedule (spawn w records)); [|done].
    rewrite spawn_no_holder. simpl. by rewrite Hl. }
  unfold mutual_exclusion. rewrite H.
  destruct (lock_held (shared s)); split; try lia; done.
Qed.

Lemma lock_excludes_witness :
  exists s,
    run_schedule [0; 1; 0; 1; 0]%nat
      (spawn fresh [decode false (record 1 "a"); decode false (record 2 "b")])
    = Some s
    /\ mutual_exclusion s
    /\ holders (threads s) = 1%nat.
Proof.
  eexists. split; [reflexivity|].
  split; [|reflexivity].
  apply (lock_excludes fresh
           [decode false (record 1 "a"); decode false (record 2 "b")]
           [0; 1; 0; 1; 0]%nat); reflexivity.
Defined.

Lemma appends_keep_every_record_witness :
  let first := decode false (record 1 "a") in
  let second := decode false (record 2 "b") in
  (exists s rest final,
     run_schedule [0; 1; 1; 0; 1]%nat (spawn fresh [first; second]) = Some s
     /\ run_schedule rest s = Some final
     /\ all_finished final = true)
  /\ exists final appended,
       run_schedule [0; 1; 1; 0; 1; 1; 0; 0]%nat (spawn fresh [first; second])
       = Some final
       /\ Permutation appended [first; second]
       /\ file (shared final) = file_of appended.
Proof.
  intros first second.
  destruct (appends_keep_every_record fresh [first; second])
    as [Hgoes Hall]; try reflexivity.
  { repeat constructor. }
  split.
  - eexists.
    destruct (Hgoes [0; 1; 1; 0; 1]%nat _ eq_refl) as (rest & final & Hrun & Hfin).
    exists rest, final. split; [reflexivity|]. split; [exact Hrun|exact Hfin].
  - eexists.
    destruct (Hall [0; 1; 1; 0; 1; 1; 0; 0]%nat _ eq_refl eq_refl)
      as (_ & appended & Hperm & Hfile).
    exists appended. split; [reflexivity|]. split; [exact Hperm|exact Hfile].
Defined.

End MoreProperties.
